(** * Dworek live-state core: Factory, Shop and the shop buy-out handler

    A shallow embedding of
      - server/app/live/factory/Factory.js   (module [Factory]),
      - server/app/live/shop/Shop.js         (module [Shop]),
      - server/app/realtime/handler/ShopBuyOutHandler.js
                                             (module [ShopBuyOutHandler]),
    together with the small part of the JavaScript runtime they rely on
    (module [JS]).

    Conventions of the embedding.
      - Live objects (users, shops) are compared by identity in the source
        ([Array.prototype.indexOf]); an object is represented by its
        reference, a natural number.
      - Whole game quantities (stock, strength, defence, level, money,
        milliseconds) are integers of [Z]; prices, ranges and distances are
        rationals of [Q].  Rounding errors of IEEE doubles are outside the
        model; [NaN] is modelled where the code can produce it.
      - A node-style asynchronous function is given by what it hands to its
        callback: [inl err] or [inr value].  Calls issued side by side under
        a [CallbackLatch] complete in the order in which the source issues
        them; the continuation registered with [latch.then] runs once every
        one of them has resolved, and never when one of them called back an
        error.
      - The persistent models (FactoryModel, GameUserModel) are records; an
        access to them fails when the environment says so ([Faults]). *)

From Stdlib Require Import ZArith List Bool String Ascii DecimalString QArith
  Qabs Lia.
Import ListNotations.
Open Scope Z_scope.

(** ** The JavaScript runtime *)

Module JS.

(** An [Error] object, identified by its message. *)
Definition Error := string.

(** What a node-style callback [(err, value)] is invoked with. *)
Definition cb (A : Type) : Type := (Error + A)%type.

(** The observable end of a call of an asynchronous function: the first
    invocation of its callback, no invocation at all, or an exception that
    escapes from it. *)
Inductive outcome (A : Type) : Type :=
| CalledBack (r : cb A)
| NoCallback
| Thrown (exn : string).
Arguments CalledBack {A} r.
Arguments NoCallback {A}.
Arguments Thrown {A} exn.

(** Reading through a fallible accessor. *)
Definition read {A : Type} (fault : option Error) (v : A) : cb A :=
  match fault with
  | Some e => inl e
  | None => inr v
  end.

Section Arrays.
Context {A : Type} (same : A -> A -> bool).

(** [Array.prototype.indexOf]: the loop over the indices from [i] on. *)
Fixpoint indexOf_from (l : list A) (x : A) (i : Z) : Z :=
  match l with
  | [] => -1
  | y :: t => if same y x then i else indexOf_from t x (i + 1)
  end.

Definition indexOf (l : list A) (x : A) : Z := indexOf_from l x 0.

(** [Array.prototype.push] of one element. *)
Definition push (l : list A) (x : A) : list A := l ++ [x].

(** [Array.prototype.splice (start, deleteCount)] without inserted
    items: a negative [start] counts from the end of the array. *)
Definition splice (l : list A) (start deleteCount : Z) : list A :=
  let len := Z.of_nat (List.length l) in
  let actualStart :=
    if start <? 0 then Z.max (len + start) 0 else Z.min start len in
  let actualDeleteCount :=
    Z.min (Z.max deleteCount 0) (len - actualStart) in
  firstn (Z.to_nat actualStart) l
    ++ skipn (Z.to_nat (actualStart + actualDeleteCount)) l.
End Arrays.

(** JavaScript numbers that hold a whole quantity, or [NaN]. *)
Inductive number : Type :=
| NaN
| Int (z : Z).

(** [a > b], [a < b], [a === b] on numbers: false as soon as one side is
    [NaN]. *)
Definition gt (a b : number) : bool :=
  match a, b with
  | Int x, Int y => y <? x
  | _, _ => false
  end.

Definition lt (a b : number) : bool :=
  match a, b with
  | Int x, Int y => x <? y
  | _, _ => false
  end.

Definition strictEq (a b : number) : bool :=
  match a, b with
  | Int x, Int y => x =? y
  | _, _ => false
  end.

(** The values a packet property can hold. *)
Inductive value : Type :=
| Undefined
| Null
| Boolean (b : bool)
| Number (n : number)
| String (s : string).

(** Strict equality with the boolean [true]. *)
Definition is_true (v : value) : bool :=
  match v with
  | Boolean true => true
  | _ => false
  end.

(** [StrWhiteSpaceChar], ASCII part. *)
Definition isWhiteSpace (c : ascii) : bool :=
  let n := nat_of_ascii c in
  (n =? 32)%nat || (n =? 9)%nat || (n =? 10)%nat || (n =? 11)%nat
    || (n =? 12)%nat || (n =? 13)%nat.

Fixpoint trimStart (s : string) : string :=
  match s with
  | EmptyString => EmptyString
  | String.String c t => if isWhiteSpace c then trimStart t else s
  end.

(** The value of a digit in radix [r], if it is one. *)
Definition digitValue (r : Z) (c : ascii) : option Z :=
  let n := Z.of_nat (nat_of_ascii c) in
  let d :=
    if (48 <=? n) && (n <=? 57) then n - 48
    else if (97 <=? n) && (n <=? 122) then n - 87
    else if (65 <=? n) && (n <=? 90) then n - 55
    else r in
  if d <? r then Some d else None.

(** The longest prefix of digits, read in radix [r] after [acc]; [seen]
    tells whether a digit has been read. *)
Fixpoint parseDigits (r : Z) (s : string) (acc : Z) (seen : bool)
  : option Z :=
  match s with
  | EmptyString => if seen then Some acc else None
  | String.String c t =>
      match digitValue r c with
      | Some d => parseDigits r t (acc * r + d) true
      | None => if seen then Some acc else None
      end
  end.

(** [parseInt (string)] with no radix argument. *)
Definition parseInt_string (s : string) : number :=
  let s1 := trimStart s in
  let '(sign, s2) :=
    match s1 with
    | String.String "-"%char t => (-1, t)
    | String.String "+"%char t => (1, t)
    | _ => (1, s1)
    end in
  let '(radix, s3) :=
    match s2 with
    | String.String "0"%char (String.String "x"%char t) => (16, t)
    | String.String "0"%char (String.String "X"%char t) => (16, t)
    | _ => (10, s2)
    end in
  match parseDigits radix s3 0 false with
  | Some n => Int (sign * n)
  | None => NaN
  end.

(** The decimal digits of a whole number that is not negative. *)
Definition digits (z : Z) : string :=
  NilZero.string_of_uint (N.to_uint (Z.to_N z)).

(** The digits after the first one of a number in exponent notation:
    the zeros at the end are not written. *)
Fixpoint stripZeros (s : string) : string :=
  match s with
  | EmptyString => EmptyString
  | String.String c t =>
      match stripZeros t with
      | EmptyString =>
          if Ascii.eqb c "0" then EmptyString
          else String.String c EmptyString
      | t' => String.String c t'
      end
  end.

(** [Number::toString] of a whole number: its decimal digits below
    [10^21]; from there on one digit, the point and the other digits if
    there are any, and the exponent. *)
Definition Number_toString (z : Z) : string :=
  let sign := if z <? 0 then "-"%string else EmptyString in
  let m := Z.abs z in
  if m <? 10 ^ 21 then (sign ++ digits m)%string
  else
    match digits m with
    | EmptyString => EmptyString
    | String.String c t =>
        let fraction :=
          match stripZeros t with
          | EmptyString => EmptyString
          | t' => String.String "." t'
          end in
        (sign ++ String.String c fraction ++ "e+"
           ++ digits (Z.of_nat (String.length t)))%string
    end.

(** [ToString] of a value. *)
Definition ToString (v : value) : string :=
  match v with
  | Undefined => "undefined"%string
  | Null => "null"%string
  | Boolean true => "true"%string
  | Boolean false => "false"%string
  | Number NaN => "NaN"%string
  | Number (Int z) => Number_toString z
  | String s => s
  end.

(** [parseInt (v)]: the argument is first converted to a string. *)
Definition parseInt (v : value) : number :=
  parseInt_string (ToString v).

End JS.

(** ** Shared game types *)

Module Game.

(** A live [User] object, by reference. *)
Definition UserRef := nat.

(** A team model; the source compares teams with [getId().equals]. *)
Definition TeamId := nat.

(** A user model; the source compares users with [getId().equals]. *)
Definition UserId := nat.

Definition Coordinate := (Q * Q)%type.

(** The live [User] class (live/user/User.js) is not embedded: what its
    methods return is part of the environment. *)
Record Users : Type := {
  getId : UserRef -> UserId;
  hasRecentLocation : UserRef -> bool;
  getLocation : UserRef -> Coordinate;
  isTeam : UserRef -> option TeamId -> JS.cb bool;
  getStrength : UserRef -> JS.cb (option Z);
  getTeam : UserRef -> JS.cb (option TeamId)
}.

(** [gameConfig.factory] and [gameConfig.shop] of the game configuration
    (the configuration module is not embedded). *)
Record FactoryConfig : Type := {
  getProductionIn : Z -> Z;
  getProductionOut : Z -> Z;
  getRange : Z -> Q;
  getActiveRange : Z -> Q;
  attackNewIn : Z -> Z;
  attackNewOut : Z -> Z;
  attackNewDefence : Z -> Z
}.

Record ShopConfig : Type := {
  range : Q;
  activeRange : Q;
  getInSellPrice : Q;
  getOutBuyPrice : Q;
  getShopLifetime : Z;
  shopAlertTime : Z;
  workerInterval : Z
}.

Record Config : Type := {
  factory : FactoryConfig;
  shop : ShopConfig
}.

(** The state of a user in a game, as [getUserState] calls it back. *)
Record UserState : Type := {
  player : bool;
  special : bool;
  spectator : bool
}.

End Game.

(** ** Factory.js *)

Module Factory.
Import JS Game.

(** The live factory: its three memories, empty on construction. *)
Record t : Type := {
  _userVisibleMem : list UserRef;
  _userRangeMem : list UserRef;
  _userPingMem : list UserRef
}.

Definition new : t :=
  {| _userVisibleMem := []; _userRangeMem := []; _userPingMem := [] |}.

(** *** Visibility, range and ping memory *)

Definition isInVisibilityMemory (f : t) (liveUser : UserRef) : bool :=
  0 <=? indexOf Nat.eqb (_userVisibleMem f) liveUser.

Definition setInVisibilityMemory (f : t) (liveUser : UserRef)
    (visible : bool) : bool * t :=
  let lastState := isInVisibilityMemory f liveUser in
  if Bool.eqb lastState visible then (false, f)
  else
    let mem := _userVisibleMem f in
    let mem' :=
      if visible then push mem liveUser
      else splice mem (indexOf Nat.eqb mem liveUser) 1 in
    (true, {| _userVisibleMem := mem';
              _userRangeMem := _userRangeMem f;
              _userPingMem := _userPingMem f |}).

Definition isInRangeMemory (f : t) (liveUser : UserRef) : bool :=
  0 <=? indexOf Nat.eqb (_userRangeMem f) liveUser.

Definition setInRangeMemory (f : t) (liveUser : UserRef)
    (inRange : bool) : bool * t :=
  let lastState := isInRangeMemory f liveUser in
  if Bool.eqb lastState inRange then (false, f)
  else
    let mem := _userRangeMem f in
    let mem' :=
      if inRange then push mem liveUser
      else splice mem (indexOf Nat.eqb mem liveUser) 1 in
    (true, {| _userVisibleMem := _userVisibleMem f;
              _userRangeMem := mem';
              _userPingMem := _userPingMem f |}).

Definition isInPingMemory (f : t) (liveUser : UserRef) : bool :=
  0 <=? indexOf Nat.eqb (_userPingMem f) liveUser.

(** A call of [Core.gameManager.broadcastLocationData]: the update
    interval handed over ([None] for [null]) and the live user. *)
Definition LocationBroadcast := (option Z * UserRef)%type.

(** [setInPingMemory]: besides the changed flag and the new memory, the
    location broadcast it issues.  [sendLocationUpdate] is [None] when the
    argument is left [undefined]; [locationUpdateInterval] is
    [config.game.locationUpdateInterval]. *)
Definition setInPingMemory (locationUpdateInterval : Z) (f : t)
    (liveUser : UserRef) (isPinged : bool)
    (sendLocationUpdate : option bool)
  : bool * t * list LocationBroadcast :=
  let lastState := isInPingMemory f liveUser in
  if Bool.eqb lastState isPinged then (false, f, [])
  else
    let mem := _userPingMem f in
    let mem' :=
      if isPinged then push mem liveUser
      else splice mem (indexOf Nat.eqb mem liveUser) 1 in
    let f' := {| _userVisibleMem := _userVisibleMem f;
                 _userRangeMem := _userRangeMem f;
                 _userPingMem := mem' |} in
    let sent :=
      match sendLocationUpdate with
      | None | Some true =>
          [((if isPinged then Some locationUpdateInterval else None),
            liveUser)]
      | Some false => []
      end in
    (true, f', sent).

(** The live factories the program can build: the constructor, followed
    by calls of the three setters. *)
Inductive reachable : t -> Prop :=
| reach_new : reachable new
| reach_visible f u b :
    reachable f -> reachable (snd (setInVisibilityMemory f u b))
| reach_range f u b :
    reachable f -> reachable (snd (setInRangeMemory f u b))
| reach_ping i f u b s :
    reachable f -> reachable (snd (fst (setInPingMemory i f u b s))).


(** *** The persistent factory and its environment *)

(** Modelled from the spec: FactoryModel (model/factory/FactoryModel.js)
    is not embedded; the spec lists the fields the core reads and writes
    (team, level, defence, in and out stock, location). *)
Record FactoryModel : Type := {
  team : option TeamId;
  level : Z;
  defence : Z;
  valueIn : Z;
  valueOut : Z;
  location : Coordinate
}.

(** The accesses to the factory model that the environment lets fail,
    each with the error it calls back. *)
Record Faults : Type := {
  f_getTeam : option Error;
  f_getLevel : option Error;
  f_getDefence : option Error;
  f_getIn : option Error;
  f_getOut : option Error;
  f_getLocation : option Error;
  f_getName : option Error;
  f_subtractIn : option Error;
  f_addOut : option Error;
  f_setTeam : option Error;
  f_setLevel : option Error;
  f_setIn : option Error;
  f_setOut : option Error;
  f_setDefence : option Error;
  f_delete : option Error
}.

Definition noFaults : Faults :=
  {| f_getTeam := None; f_getLevel := None; f_getDefence := None;
     f_getIn := None; f_getOut := None; f_getLocation := None;
     f_getName := None; f_subtractIn := None; f_addOut := None;
     f_setTeam := None; f_setLevel := None; f_setIn := None;
     f_setOut := None; f_setDefence := None; f_delete := None |}.

(** What a game user model calls back for [getTeam]. *)
Record GameUser : Type := {
  gu_getTeam : cb (option TeamId)
}.

(** Everything a live factory reaches through [Core], its game and its
    model.  [getFactoryModel] is [None] when the instance manager hands
    out [null]. *)
Record World : Type := {
  getFactoryModel : option FactoryModel;
  faults : Faults;
  getConfig : cb Config;
  users : Users;
  isInRange : Coordinate -> Coordinate -> Q -> bool;
  getStage : cb Z;
  getUserState : UserRef -> cb UserState;
  getGameUser : UserRef -> cb (option GameUser);
  userNames : UserRef -> cb string;
  teamNames : TeamId -> cb string;
  broadcastData : cb unit;
  userManager_users : list UserRef
}.

Definition TypeError_null : string :=
  "TypeError: Cannot read property of null"%string.

Definition TypeError_undefined : string :=
  "TypeError: Cannot read property of undefined"%string.

(** Sequencing on the result of a callback: an error is called back at
    once. *)
Definition bind {A B : Type} (r : cb A) (k : A -> outcome B)
  : outcome B :=
  match r with
  | inl e => CalledBack (inl e)
  | inr a => k a
  end.

Notation "x <- r ;; k" := (bind r (fun x => k))
  (at level 61, r at next level, right associativity).

(** Sequencing on the outcome of a nested asynchronous call. *)
Definition andThen {A B : Type} (o : outcome A) (k : A -> outcome B)
  : outcome B :=
  match o with
  | CalledBack (inl e) => CalledBack (inl e)
  | CalledBack (inr a) => k a
  | NoCallback => NoCallback
  | Thrown x => Thrown x
  end.

(** *** Range *)

Definition getLevel (w : World) : outcome Z :=
  match getFactoryModel w with
  | None => Thrown TypeError_null
  | Some m => CalledBack (read (f_getLevel (faults w)) (level m))
  end.

Definition getRange (w : World) (f : t) (liveUser : option UserRef)
  : outcome Q :=
  match getFactoryModel w with
  | None => Thrown TypeError_null
  | Some m =>
      gameConfig <- getConfig w ;;
      level <- read (f_getLevel (faults w)) (level m) ;;
      let inMemory :=
        match liveUser with
        | Some u => isInRangeMemory f u
        | None => false
        end in
      if inMemory
      then CalledBack (inr (getActiveRange (factory gameConfig) level))
      else CalledBack (inr (Game.getRange (factory gameConfig) level))
  end.

Definition isUserInRange (w : World) (f : t) (liveUser : option UserRef)
  : outcome bool :=
  match liveUser with
  | None => CalledBack (inr false)
  | Some u =>
      if negb (hasRecentLocation (users w) u) then CalledBack (inr false)
      else
        andThen (getRange w f liveUser) (fun factoryRange =>
          match getFactoryModel w with
          | None => Thrown TypeError_null
          | Some m =>
              factoryLocation <-
                read (f_getLocation (faults w)) (location m) ;;
              CalledBack
                (inr (isInRange w factoryLocation
                        (getLocation (users w) u) factoryRange))
          end)
  end.

(** *** Visibility state *)

Record VisibilityStateObject : Type := {
  ally : bool;
  visible : bool;
  inRange : bool;
  pinged : bool
}.

Definition resultObject0 : VisibilityStateObject :=
  {| ally := false; visible := false; inRange := false; pinged := false |}.

(** The assignments the callbacks of [getVisibilityState] make to the
    result object. *)
Definition markSpectator (r : VisibilityStateObject) :=
  {| ally := ally r; visible := true; inRange := false;
     pinged := pinged r |}.

Definition markPinged (r : VisibilityStateObject) :=
  {| ally := ally r; visible := true; inRange := inRange r;
     pinged := true |}.

Definition markAlly (r : VisibilityStateObject) :=
  {| ally := true; visible := true; inRange := inRange r;
     pinged := pinged r |}.

Definition markInRange (result : bool) (r : VisibilityStateObject) :=
  {| ally := ally r;
     visible := if result then true else visible r;
     inRange := result;
     pinged := pinged r |}.

Definition sameTeam (a b : option TeamId) : bool :=
  match a, b with
  | Some x, Some y => Nat.eqb x y
  | _, _ => false
  end.

Definition getVisibilityState (w : World) (f : t)
    (liveUser : option UserRef) : outcome VisibilityStateObject :=
  match liveUser with
  | None => CalledBack (inr resultObject0)
  | Some u =>
      match getFactoryModel w with
      | None => CalledBack (inr resultObject0)
      | Some m =>
          factoryTeam <- read (f_getTeam (faults w)) (team m) ;;
          gameUser <- getGameUser w u ;;
          gameStage <- getStage w ;;
          userTeam <-
            match gameUser with
            | None => inr None
            | Some g => gu_getTeam g
            end ;;
          userState <- getUserState w u ;;
          let r1 :=
            if spectator userState || (2 <=? gameStage)
            then markSpectator resultObject0 else resultObject0 in
          let r2 := if isInPingMemory f u then markPinged r1 else r1 in
          let r3 :=
            if player userState && sameTeam factoryTeam userTeam
            then markAlly r2 else r2 in
          if (player userState || special userState)
               && hasRecentLocation (users w) u && (gameStage <? 2)
          then
            andThen (isUserInRange w f liveUser) (fun result =>
              CalledBack (inr (markInRange result r3)))
          else CalledBack (inr r3)
      end
  end.

(** *** Production and tick *)

Definition getProductionIn (w : World) : outcome Z :=
  match getFactoryModel w with
  | None => Thrown TypeError_null
  | Some m =>
      gameConfig <- getConfig w ;;
      level <- read (f_getLevel (faults w)) (level m) ;;
      CalledBack (inr (Game.getProductionIn (factory gameConfig) level))
  end.

Definition getProductionOut (w : World) : outcome Z :=
  match getFactoryModel w with
  | None => Thrown TypeError_null
  | Some m =>
      gameConfig <- getConfig w ;;
      level <- read (f_getLevel (faults w)) (level m) ;;
      CalledBack (inr (Game.getProductionOut (factory gameConfig) level))
  end.

(** Modelled from the spec: the writers of FactoryModel (not embedded)
    change the field they are named after and nothing else: [subtractIn]
    lowers the in-stock, [addOut] raises the out-stock, a setter
    overwrites its field. *)
Definition subtractIn (n : Z) (m : FactoryModel) : FactoryModel :=
  {| team := team m; level := level m; defence := defence m;
     valueIn := valueIn m - n; valueOut := valueOut m;
     location := location m |}.

Definition addOut (n : Z) (m : FactoryModel) : FactoryModel :=
  {| team := team m; level := level m; defence := defence m;
     valueIn := valueIn m; valueOut := valueOut m + n;
     location := location m |}.

Definition setTeam (x : option TeamId) (m : FactoryModel) : FactoryModel :=
  {| team := x; level := level m; defence := defence m;
     valueIn := valueIn m; valueOut := valueOut m;
     location := location m |}.

Definition setLevel (x : Z) (m : FactoryModel) : FactoryModel :=
  {| team := team m; level := x; defence := defence m;
     valueIn := valueIn m; valueOut := valueOut m;
     location := location m |}.

Definition setIn (x : Z) (m : FactoryModel) : FactoryModel :=
  {| team := team m; level := level m; defence := defence m;
     valueIn := x; valueOut := valueOut m; location := location m |}.

Definition setOut (x : Z) (m : FactoryModel) : FactoryModel :=
  {| team := team m; level := level m; defence := defence m;
     valueIn := valueIn m; valueOut := x; location := location m |}.

Definition setDefence (x : Z) (m : FactoryModel) : FactoryModel :=
  {| team := team m; level := level m; defence := x;
     valueIn := valueIn m; valueOut := valueOut m;
     location := location m |}.

(** A write that the environment may refuse: the error it calls back, if
    any, and the model afterwards. *)
Definition write (fault : option Error)
    (update : FactoryModel -> FactoryModel) (m : FactoryModel)
  : option Error * FactoryModel :=
  match fault with
  | Some e => (Some e, m)
  | None => (None, update m)
  end.

(** The first error among writes issued side by side. *)
Fixpoint firstError (l : list (option Error)) : option Error :=
  match l with
  | [] => None
  | Some e :: _ => Some e
  | None :: t => firstError t
  end.

(** The result of a state-changing call: what its callback receives and
    the stored factory afterwards ([None] once it is deleted or when
    there is none). *)
Definition effect : Type := (outcome unit * option FactoryModel)%type.

Definition tick (w : World) (f : t) : effect :=
  match getFactoryModel w with
  | None => (Thrown TypeError_null, None)
  | Some m =>
      let fetched :=
        andThen (getProductionIn w) (fun productionIn =>
        andThen (getProductionOut w) (fun productionOut =>
        valueIn <- read (f_getIn (faults w)) (valueIn m) ;;
        CalledBack (inr (productionIn, productionOut, valueIn)))) in
      match fetched with
      | CalledBack (inr (productionIn, productionOut, valueIn)) =>
          if valueIn <? productionIn then (CalledBack (inr tt), Some m)
          else
            let '(e1, m1) :=
              write (f_subtractIn (faults w)) (subtractIn productionIn) m in
            let '(e2, m2) :=
              write (f_addOut (faults w)) (addOut productionOut) m1 in
            match firstError [e1; e2] with
            | Some e => (CalledBack (inl e), Some m2)
            | None => (CalledBack (broadcastData w), Some m2)
            end
      | CalledBack (inl e) => (CalledBack (inl e), Some m)
      | NoCallback => (NoCallback, Some m)
      | Thrown x => (Thrown x, Some m)
      end
  end.

(** *** Conquer value *)

(** The body of the loop over the range memory, on the pair of the
    conquer value and the user count; an error ends the tally. *)
Definition conquerUser (w : World) (factoryTeam : option TeamId)
    (acc : cb (Z * Z)) (liveUser : UserRef) : cb (Z * Z) :=
  match acc with
  | inl e => inl e
  | inr (conquerValue, userCount) =>
      if negb (hasRecentLocation (users w) liveUser) then acc
      else
        match isTeam (users w) liveUser factoryTeam with
        | inl e => inl e
        | inr ally =>
            match getStrength (users w) liveUser with
            | inl e => inl e
            | inr None => acc
            | inr (Some userStrength) =>
                inr (conquerValue
                       + (if ally : bool then - userStrength
                          else userStrength),
                     userCount + 1)
            end
        end
  end.

Definition getConquer (w : World) (f : t) : outcome (Z * Z) :=
  match getFactoryModel w with
  | None => Thrown TypeError_null
  | Some m =>
      defence <- read (f_getDefence (faults w)) (defence m) ;;
      factoryTeam <- read (f_getTeam (faults w)) (team m) ;;
      CalledBack
        (fold_left (conquerUser w factoryTeam) (_userRangeMem f)
           (inr (0 - defence, 0)))
  end.

(** *** Attack *)

Definition failing (e : Error) (m : FactoryModel) : effect :=
  (CalledBack (inl e), Some m).

(** A [FACTORY_CAPTURED] or [FACTORY_DESTROYED] packet: the user it is
    sent to and its three flags. *)
Record Notification : Type := {
  n_user : UserRef;
  n_self : bool;
  n_ally : bool;
  n_enemy : bool
}.

(** The function handed to [otherUser.getTeam] in the loop over the users
    of the game that follows a capture or a destruction: the packet it
    sends, if any, or the exception it throws.  An error of [getTeam] is
    printed and the function goes on with [otherTeam] undefined, which is
    not [null]: [otherTeam.getId ()] throws.  For a user with a team,
    [factoryTeam.getId ()] throws when the factory had no team. *)
Definition notifyUser (w : World) (f : t) (user : UserRef)
    (userTeam : TeamId) (factoryTeam : option TeamId) (otherUser : UserRef)
  : string + option Notification :=
  match getTeam (users w) otherUser with
  | inl _ => inl TypeError_undefined
  | inr None => inr None
  | inr (Some otherTeam) =>
      let isSelf :=
        Nat.eqb (getId (users w) user) (getId (users w) otherUser) in
      let isAlly := Nat.eqb userTeam otherTeam in
      match factoryTeam with
      | None => inl TypeError_null
      | Some factoryTeam =>
          let isEnemy := Nat.eqb factoryTeam otherTeam in
          if negb isAlly && negb isEnemy
             && negb (isInRangeMemory f otherUser)
          then inr None
          else inr (Some {| n_user := otherUser; n_self := isSelf;
                            n_ally := isAlly; n_enemy := isEnemy |})
      end
  end.

(** The loop itself: the packets sent, and the exception that ends it
    before its time, if any. *)
Fixpoint notifyUsers (w : World) (f : t) (user : UserRef)
    (userTeam : TeamId) (factoryTeam : option TeamId) (l : list UserRef)
  : list Notification * option string :=
  match l with
  | [] => ([], None)
  | otherUser :: rest =>
      match notifyUser w f user userTeam factoryTeam otherUser with
      | inl x => ([], Some x)
      | inr n =>
          let '(sent, x) :=
            notifyUsers w f user userTeam factoryTeam rest in
          (match n with
           | Some p => p :: sent
           | None => sent
           end, x)
      end
  end.

(** The packets [attack] sends to the users of the game once a capture
    is written or the factory is destroyed. *)
Definition notices (w : World) (f : t) (user : UserRef) (userTeam : TeamId)
    (factoryTeam : option TeamId)
  : list Notification * option string :=
  notifyUsers w f user userTeam factoryTeam (userManager_users w).

(** [attack (user, callback)].  Once the five writes of a capture have
    resolved, the source reads three names under the latch, hands the
    loop over the users to [latch.then], starts two broadcasts whose
    errors are printed, and calls back success unless an error was called
    back before.  The names and the loop are taken before that callback,
    as they run when the accessors answer before they return: an error of
    a name is then what is called back, and an exception of the loop
    escapes. *)
Definition attack (w : World) (f : t) (user : UserRef) : effect :=
  match getFactoryModel w with
  | None => (Thrown TypeError_null, None)
  | Some m =>
    match read (f_getTeam (faults w)) (team m) with
    | inl e => failing e m
    | inr factoryTeam =>
    match getTeam (users w) user with
    | inl e => failing e m
    | inr None => failing "User doesn't have team"%string m
    | inr (Some userTeam) =>
    match getConquer w f with
    | NoCallback => (NoCallback, Some m)
    | Thrown x => (Thrown x, Some m)
    | CalledBack (inl e) => failing e m
    | CalledBack (inr (result, _)) =>
    if result <=? 0 then failing "Conquer value must be above zero"%string m
    else if sameTeam factoryTeam (Some userTeam)
    then failing "User can't take over ally factory"%string m
    else
    match read (f_getLevel (faults w)) (level m) with
    | inl e => failing e m
    | inr factoryLevel =>
    if factoryLevel <=? 1 then
      (* Destroy the factory if the level is one *)
      match read (f_getName (faults w)) tt with
      | inl e => failing e m
      | inr _ =>
      match userNames w user with
      | inl e => failing e m
      | inr _ =>
      match teamNames w userTeam with
      | inl e => failing e m
      | inr _ =>
          (* [destroy]; the function handed to it looks at the [err] of
             the level, which is [null], and runs the loop in any case;
             nothing calls back *)
          (match snd (notices w f user userTeam factoryTeam) with
           | Some x => Thrown x
           | None => NoCallback
           end,
           match f_delete (faults w) with
           | Some _ => Some m
           | None => None
           end)
      end end end
    else
      match read (f_getIn (faults w)) (valueIn m) with
      | inl e => failing e m
      | inr factoryIn =>
      match read (f_getOut (faults w)) (valueOut m) with
      | inl e => failing e m
      | inr factoryOut =>
      match read (f_getDefence (faults w)) (defence m) with
      | inl e => failing e m
      | inr factoryDefence =>
      match getConfig w with
      | inl e => failing e m
      | inr gameConfig =>
          let factoryIn := attackNewIn (factory gameConfig) factoryIn in
          let factoryOut := attackNewOut (factory gameConfig) factoryOut in
          let factoryDefence :=
            attackNewDefence (factory gameConfig) factoryDefence in
          let '(e1, m1) :=
            write (f_setTeam (faults w)) (setTeam (Some userTeam)) m in
          let '(e2, m2) :=
            write (f_setLevel (faults w)) (setLevel (factoryLevel - 1)) m1 in
          let '(e3, m3) :=
            write (f_setIn (faults w)) (setIn factoryIn) m2 in
          let '(e4, m4) :=
            write (f_setOut (faults w)) (setOut factoryOut) m3 in
          let '(e5, m5) :=
            write (f_setDefence (faults w)) (setDefence factoryDefence) m4 in
          match firstError [e1; e2; e3; e4; e5] with
          | Some e => (CalledBack (inl e), Some m5)
          | None =>
              (* the three names, the loop over the users, the callback *)
              match read (f_getName (faults w)) tt with
              | inl e => (CalledBack (inl e), Some m5)
              | inr _ =>
              match userNames w user with
              | inl e => (CalledBack (inl e), Some m5)
              | inr _ =>
              match teamNames w userTeam with
              | inl e => (CalledBack (inl e), Some m5)
              | inr _ =>
                  match snd (notices w f user userTeam factoryTeam) with
                  | Some x => (Thrown x, Some m5)
                  | None => (CalledBack (inr tt), Some m5)
                  end
              end end end
          end
      end end end end
    end end end end
  end.

End Factory.

(** ** Shop.js and the timers it sets *)

Module Shop.
Import JS Game.

(** The live shop; [ref] is the identity of the object. *)
Record t : Type := {
  ref : nat;
  _token : option string;
  _user : UserRef;
  _inSellPrice : option Q;
  _outBuyPrice : option Q;
  _range : option Q;
  _userRangeMem : list UserRef
}.

(** The constructor, for the object [ref] attached to the live user
    [user]. *)
Definition new (ref : nat) (user : UserRef) : t :=
  {| ref := ref; _token := None; _user := user; _inSellPrice := None;
     _outBuyPrice := None; _range := None; _userRangeMem := [] |}.

Definition same (a b : t) : bool := Nat.eqb (ref a) (ref b).

(** What a shop reaches through its game and its user. *)
Record World : Type := {
  getConfig : cb Config;
  users : Users;
  getDistanceTo : Coordinate -> Coordinate -> Q
}.

Definition getUser (s : t) : UserRef := _user s.

Definition getLocation (w : World) (s : t) : Coordinate :=
  Game.getLocation (users w) (getUser s).

(** *** Range memory *)

Definition isInRangeMemory (s : t) (liveUser : UserRef) : bool :=
  0 <=? indexOf Nat.eqb (_userRangeMem s) liveUser.

Definition setInRangeMemory (s : t) (liveUser : UserRef) (inRange : bool)
  : bool * t :=
  let lastState := isInRangeMemory s liveUser in
  if Bool.eqb lastState inRange then (false, s)
  else
    let mem := _userRangeMem s in
    let mem' :=
      if inRange then push mem liveUser
      else splice mem (indexOf Nat.eqb mem liveUser) 1 in
    (true, {| ref := ref s; _token := _token s; _user := _user s;
              _inSellPrice := _inSellPrice s;
              _outBuyPrice := _outBuyPrice s; _range := _range s;
              _userRangeMem := mem' |}).

(** The range memories the program can build for the shop object [r] of
    the user [u]. *)
Inductive reachable (r : nat) (u : UserRef) : t -> Prop :=
| reach_new : reachable r u (new r u)
| reach_range s v b :
    reachable r u s -> reachable r u (snd (setInRangeMemory s v b)).

(** *** Range *)

Definition getRange (w : World) (s : t) (liveUser : option UserRef)
  : outcome Q :=
  match getConfig w with
  | inl err => CalledBack (inl err)
  | inr gameConfig =>
      let inMemory :=
        match liveUser with
        | Some u => isInRangeMemory s u
        | None => false
        end in
      if inMemory then CalledBack (inr (activeRange (shop gameConfig)))
      else CalledBack (inr (range (shop gameConfig)))
  end.

(** The identifiers that are bound where the callback handed to
    [getRange] by [isUserInRange] is written: its own parameters, the
    parameters of [isUserInRange], the variables declared at the top of
    the file and those of the module wrapper.  Unlike [load] and
    [getRange], [isUserInRange] declares no [self], and Node provides no
    global of that name. *)
Definition isUserInRange_scope : list string :=
  ["err"; "range"; "liveUser"; "callback";
   "mongo"; "ObjectId"; "config"; "Core"; "CallbackLatch";
   "TokenGenerator"; "PacketType"; "Shop";
   "exports"; "require"; "module"; "__filename"; "__dirname"]%string.

Definition bound (x : string) (scope : list string) : bool :=
  existsb (String.eqb x) scope.

Definition ReferenceError_self : string :=
  "ReferenceError: self is not defined"%string.

Definition isUserInRange (w : World) (s : t) (liveUser : option UserRef)
  : outcome bool :=
  match liveUser with
  | None => CalledBack (inr false)
  | Some u =>
      if Nat.eqb (getId (users w) (getUser s)) (getId (users w) u)
      then CalledBack (inr true)
      else if negb (hasRecentLocation (users w) u)
      then CalledBack (inr false)
      else
        match getRange w s liveUser with
        | CalledBack (inl err) => CalledBack (inl err)
        | CalledBack (inr range) =>
            if bound "self" isUserInRange_scope
            then
              CalledBack
                (inr (Qle_bool
                        (getDistanceTo w (getLocation w s)
                           (Game.getLocation (users w) u))
                        range))
            else Thrown ReferenceError_self
        | NoCallback => NoCallback
        | Thrown x => Thrown x
        end
  end.

(** *** Loading and the scheduled handover *)

(** The two closures [load] hands to [setTimeout].  Both close over the
    shop; [functionPrepareTransfer] also over the alert time computed by
    [load] and over the game configuration [load] received, of which it
    reads [shop.workerInterval]. *)
Inductive Task : Type :=
| functionPrepareTransfer (self : t) (alertTime workerInterval : Z)
| functionTransfer (self : t).

(** A pending timer: the time at which it fires, that is the time of the
    call of [setTimeout] plus the delay handed over. *)
Record Timer : Type := {
  due : Z;
  task : Task
}.

(** A [MESSAGE_RESPONSE] packet sent to a user. *)
Record Notice : Type := {
  recipient : UserRef;
  message : string
}.

(** The shop manager, the event loop and the packets sent so far. *)
Record Loop : Type := {
  now : Z;
  timers : list Timer;
  shops : list t;
  scheduledUsers : list UserRef;
  sent : list Notice
}.

Definition setTimeout (k : Task) (delay : Z) (l : Loop) : Loop :=
  {| now := now l;
     timers := timers l ++ [{| due := now l + delay; task := k |}];
     shops := shops l;
     scheduledUsers := scheduledUsers l;
     sent := sent l |}.

Definition sendPacketUser (n : Notice) (l : Loop) : Loop :=
  {| now := now l; timers := timers l; shops := shops l;
     scheduledUsers := scheduledUsers l; sent := sent l ++ [n] |}.

Definition scheduleUser (u : UserRef) (l : Loop) : Loop :=
  {| now := now l; timers := timers l; shops := shops l;
     scheduledUsers := scheduledUsers l ++ [u]; sent := sent l |}.

(** What [load] receives from the token generator and the game. *)
Record LoadEnv : Type := {
  generateToken : cb string;
  load_getConfig : cb Config
}.

(** [load]: what it calls back, the shop and the event loop afterwards. *)
Definition load (e : LoadEnv) (s : t) (l : Loop)
  : outcome unit * t * Loop :=
  let s1 :=
    match generateToken e with
    | inl _ => s
    | inr token =>
        {| ref := ref s; _token := Some token; _user := _user s;
           _inSellPrice := _inSellPrice s;
           _outBuyPrice := _outBuyPrice s; _range := _range s;
           _userRangeMem := _userRangeMem s |}
    end in
  match load_getConfig e with
  | inl err =>
      (CalledBack
         (inl match generateToken e with inl err0 => err0 | inr _ => err end),
       s1, l)
  | inr gameConfig =>
      let s2 :=
        {| ref := ref s1; _token := _token s1; _user := _user s1;
           _inSellPrice := Some (getInSellPrice (shop gameConfig));
           _outBuyPrice := Some (getOutBuyPrice (shop gameConfig));
           _range := Some (range (shop gameConfig));
           _userRangeMem := _userRangeMem s1 |} in
      let lifeTime := getShopLifetime (shop gameConfig) in
      let alertTime := Z.min (shopAlertTime (shop gameConfig)) lifeTime in
      let l' :=
        setTimeout
          (functionPrepareTransfer s2 alertTime
             (workerInterval (shop gameConfig)))
          (lifeTime - alertTime) l in
      (CalledBack
         match generateToken e with
         | inl err0 => inl err0
         | inr _ => inr tt
         end,
       s2, l')
  end.

(** What the shop manager and the owner answer when a preparation step
    runs. *)
Record Handover : Type := {
  getTeamModel : option TeamId;
  findNewShopUser : cb (option UserRef);
  getTeamPreferredShopCountDelta : cb Z
}.

Definition run_functionPrepareTransfer (h : Handover) (self : t)
    (alertTime workerInterval : Z) (l : Loop) : Loop :=
  match getTeamModel h with
  | None => l
  | Some _ =>
      match findNewShopUser h with
      | inl _ => l
      | inr newUser =>
          match getTeamPreferredShopCountDelta h with
          | inl _ => l
          | inr delta =>
              match newUser with
              | None =>
                  if 0 <=? delta
                  then
                    setTimeout
                      (functionPrepareTransfer self alertTime
                         workerInterval)
                      workerInterval l
                  else
                    sendPacketUser
                      {| recipient := getUser self;
                         message :=
                           "You will lose your dealer ability soon..." |}
                      (setTimeout (functionTransfer self) alertTime l)
              | Some u =>
                  sendPacketUser
                    {| recipient := getUser self;
                       message :=
                         "Your dealer ability will be given to another player soon..." |}
                    (setTimeout (functionTransfer self) alertTime
                       (scheduleUser u l))
              end
          end
      end
  end.

Definition run_functionTransfer (self : t) (l : Loop) : Loop :=
  sendPacketUser
    {| recipient := getUser self; message := "You're no longer a dealer" |}
    {| now := now l;
       timers := timers l;
       shops := splice (shops l) (indexOf same (shops l) self) 1;
       scheduledUsers := scheduledUsers l;
       sent := sent l |}.

(** The first of the timers that are due earliest, and the others. *)
Fixpoint nextTimer (ts : list Timer) : option (Timer * list Timer) :=
  match ts with
  | [] => None
  | x :: rest =>
      match nextTimer rest with
      | None => Some (x, [])
      | Some (y, others) =>
          if due x <=? due y then Some (x, rest)
          else Some (y, x :: others)
      end
  end.

(** One turn of the event loop: the next timer fires at its due time.
    [world t] is what the environment answers at time [t]. *)
Definition turn (world : Z -> Handover) (l : Loop) : option Loop :=
  match nextTimer (timers l) with
  | None => None
  | Some (x, others) =>
      let l1 :=
        {| now := due x; timers := others; shops := shops l;
           scheduledUsers := scheduledUsers l; sent := sent l |} in
      Some
        match task x with
        | functionPrepareTransfer self alertTime workerInterval =>
            run_functionPrepareTransfer (world (due x)) self alertTime
              workerInterval l1
        | functionTransfer self => run_functionTransfer self l1
        end
  end.

(** [n] turns of the event loop, or as many as there are timers. *)
Fixpoint turns (world : Z -> Handover) (n : nat) (l : Loop) : Loop :=
  match n with
  | O => l
  | S n' =>
      match turn world l with
      | None => l
      | Some l' => turns world n' l'
      end
  end.

End Shop.

(** ** ShopBuyOutHandler.js *)

Module ShopBuyOutHandler.
Import JS Game.

(** The packet: a property that is absent is [None]. *)
Record Packet : Type := {
  p_shop : option value;
  p_amount : option value;
  p_outAmount : option value;
  p_all : option value
}.

Definition hasOwnProperty (p : option value) : bool :=
  match p with
  | Some _ => true
  | None => false
  end.

(** Reading a property: [undefined] when it is absent. *)
Definition get (p : option value) : value :=
  match p with
  | Some v => v
  | None => Undefined
  end.

Record Session : Type := {
  valid : option bool;
  user : UserId
}.

Record Socket : Type := {
  session : option Session
}.

(** The out and money balance of a game user. *)
Record Balance : Type := {
  out : number;
  money : number
}.

(** The balances of the game users, by game and user. *)
Definition Store : Type := nat -> UserId -> Balance.

(** A live game, as far as the handler reaches into it. *)
Record LiveGame : Type := {
  game : nat;
  shops : list Shop.t;
  shopWorld : Shop.World;
  getGameUser : UserId -> option Error;
  getUser : UserId -> cb (option UserRef)
}.

(** A [MESSAGE_RESPONSE] packet sent to the socket. *)
Record MessageResponse : Type := {
  error : bool;
  message : string;
  dialog : bool;
  toast : bool
}.

(** What a run of the handler leaves behind: the balances, the packets
    sent to the socket and the exception that escaped, if any. *)
Record Result : Type := {
  store : Store;
  sent : list MessageResponse;
  thrown : option string
}.

Definition respond (st : Store) (m : MessageResponse) : Result :=
  {| store := st; sent := [m]; thrown := None |}.

Definition errorDialog (s : string) : MessageResponse :=
  {| error := true; message := s; dialog := true; toast := false |}.

(** [callbackError]: the first call sends the packet. *)
Definition callbackError (st : Store) : Result :=
  respond st
    (errorDialog "Failed to sell goods, a server error occurred.").

(** [liveShop.getToken() !== rawShop], negated. *)
Definition tokenIs (token : option string) (rawShop : value) : bool :=
  match token, rawShop with
  | Some s, String s' => String.eqb s s'
  | None, Null => true
  | _, _ => false
  end.

(** The two nested loops: the first shop, in the order of the games and
    of their shops, whose token is the one of the packet. *)
Fixpoint findShop (games : list LiveGame) (rawShop : value)
  : option (LiveGame * Shop.t) :=
  match games with
  | [] => None
  | liveGame :: rest =>
      match find (fun liveShop => tokenIs (Shop._token liveShop) rawShop)
              (shops liveGame) with
      | Some liveShop => Some (liveGame, liveShop)
      | None => findShop rest rawShop
      end
  end.

(** [_.has(socket, 'session.valid') && socket.session.valid], and the
    user of the session when it holds. *)
Definition authenticatedUser (socket : Socket) : option UserId :=
  match session socket with
  | Some s =>
      match valid s with
      | Some true => Some (user s)
      | _ => None
      end
  | None => None
  end.

(** The amount of out to deposit, as the function handed to
    [getOutBuyPriceForGameUser] determines it from the packet and the
    current out balance. *)
Definition outAmountOf (packet : Packet) (outCurrent : number) : number :=
  if is_true (get (p_all packet)) then outCurrent
  else parseInt (get (p_outAmount packet)).

Definition TypeError_not_a_function : string :=
  "TypeError: liveShop.getOutBuyPriceForGameUser is not a function"%string.

(** The callbacks nested below the shop that was found, down to the call
    of [liveShop.getOutBuyPriceForGameUser] in the callback handed to
    [isUserInRange].  Neither the constructor of [Shop] nor
    [Shop.prototype] (token, user, shop manager, game, location, load,
    the two prices, range, range memory, in-range check, name) has a
    property of that name: the call throws, and the function handed to
    it, the only one to read and write the balances, is never invoked. *)
Definition transaction (liveGame : LiveGame) (liveShop : Shop.t)
    (packet : Packet) (user : UserId) (st : Store) : Result :=
  match getGameUser liveGame user with
  | Some _ => callbackError st
  | None =>
  match getUser liveGame user with
  | inl _ | inr None => callbackError st
  | inr (Some liveUser) =>
  match Shop.isUserInRange (shopWorld liveGame) liveShop (Some liveUser) with
  | Thrown x => {| store := st; sent := []; thrown := Some x |}
  | NoCallback => {| store := st; sent := []; thrown := None |}
  | CalledBack (inl _) | CalledBack (inr false) => callbackError st
  | CalledBack (inr true) =>
      {| store := st; sent := []; thrown := Some TypeError_not_a_function |}
  end end end.

(** [handler (packet, socket)] over the games of [Core.gameManager]. *)
Definition handler (games : list LiveGame) (packet : Packet)
    (socket : Socket) (st : Store) : Result :=
  if negb (hasOwnProperty (p_shop packet))
     || (negb (hasOwnProperty (p_amount packet))
         && negb (hasOwnProperty (p_all packet)))
  then callbackError st
  else
    let rawShop := get (p_shop packet) in
    match authenticatedUser socket with
    | None =>
        respond st
          (errorDialog "Transaction failed, you're not authenticated.")
    | Some user =>
        match findShop games rawShop with
        | Some (liveGame, liveShop) =>
            transaction liveGame liveShop packet user st
        | None =>
            respond st
              (errorDialog
                 "The transaction failed, couldn't find shop. The shop you're trying to use might not be available anymore.")
        end
    end.

End ShopBuyOutHandler.

(** ** The vocabulary of the specification *)

Module Spec.
Import JS Game.

(** What a setter promises about the memory it works on: [changed] is
    its return value, [before] and [after] the memory around the call,
    [u] the live user and [b] the requested flag. *)
Definition setter_ok (before after : list UserRef) (changed : bool)
    (u : UserRef) (b : bool) : Prop :=
  (changed = true <-> (0 <=? indexOf Nat.eqb before u) <> b)
  /\ (0 <=? indexOf Nat.eqb after u) = b
  /\ NoDup before /\ NoDup after.

(** The strength a live user brings to the conquer value of a factory
    of team [factoryTeam]: negative for an ally, positive otherwise,
    nothing when the user has no strength. *)
Definition signedStrength (us : Users) (factoryTeam : option TeamId)
    (u : UserRef) : Z :=
  match getStrength us u, isTeam us u factoryTeam with
  | inr (Some s), inr true => - s
  | inr (Some s), _ => s
  | _, _ => 0
  end.

(** The users of a memory that have a recent location. *)
Definition located (us : Users) (mem : list UserRef) : list UserRef :=
  filter (hasRecentLocation us) mem.

(** Whether a user adds a strength to the sum. *)
Definition contributes (us : Users) (u : UserRef) : bool :=
  match getStrength us u with
  | inr (Some _) => true
  | _ => false
  end.

(** The signed sum of the strengths over the located users of [mem],
    minus the defence value. *)
Definition conquerValue (us : Users) (factoryTeam : option TeamId)
    (defence : Z) (mem : list UserRef) : Z :=
  fold_right Z.add 0 (map (signedStrength us factoryTeam) (located us mem))
  - defence.

(** The number of users that contributed to the sum. *)
Definition userCount (us : Users) (mem : list UserRef) : Z :=
  Z.of_nat (List.length (filter (contributes us) (located us mem))).

(** A factory that is allied, in range or pinged is visible. *)
Definition coherent (r : Factory.VisibilityStateObject) : Prop :=
  Factory.ally r || Factory.inRange r || Factory.pinged r = true ->
  Factory.visible r = true.

(** The stored factory when its team, its level, its stocks and its
    defence are what they were in [m]. *)
Definition unchanged (m : Factory.FactoryModel)
    (after : option Factory.FactoryModel) : Prop :=
  exists m', after = Some m'
    /\ Factory.team m' = Factory.team m
    /\ Factory.level m' = Factory.level m
    /\ Factory.valueIn m' = Factory.valueIn m
    /\ Factory.valueOut m' = Factory.valueOut m
    /\ Factory.defence m' = Factory.defence m.

(** The stored factory belongs to the team [T]. *)
Definition ownedBy (T : TeamId) (after : option Factory.FactoryModel)
  : Prop :=
  exists m', after = Some m' /\ Factory.team m' = Some T.

(** An environment in which no access of [attack] fails. *)
Definition reliable (w : Factory.World) (user : UserRef) (T : TeamId)
  : Prop :=
  Factory.faults w = Factory.noFaults
  /\ (exists gameConfig, Factory.getConfig w = inr gameConfig)
  /\ (exists name, Factory.userNames w user = inr name)
  /\ (exists name, Factory.teamNames w T = inr name).

(** The attack rule in the words of the specification: the factory goes
    over to the team [T] of the attacker exactly when the conquer value
    is above zero and [T] is not the team of the factory; in every other
    case an error is called back and the factory is left as it was. *)
Definition attack_rule_as_specified : Prop :=
  forall w f user T m c n,
    Factory.getFactoryModel w = Some m ->
    reliable w user T ->
    getTeam (Factory.users w) user = inr (Some T) ->
    Factory.getConquer w f = CalledBack (inr (c, n)) ->
    let differs := Factory.sameTeam (Factory.team m) (Some T) = false in
    ((differs /\ ownedBy T (snd (Factory.attack w f user)))
     <-> (0 < c /\ differs))
    /\ (~ (0 < c /\ differs) ->
        (exists e, fst (Factory.attack w f user) = CalledBack (inl e))
        /\ unchanged m (snd (Factory.attack w f user))).

(** A preparation step that finds nobody to hand the shop to while the
    team is not above its preferred number of shops. *)
Definition noReplacement (h : Shop.Handover) : Prop :=
  Shop.getTeamModel h <> None
  /\ Shop.findNewShopUser h = inr None
  /\ exists delta,
       Shop.getTeamPreferredShopCountDelta h = inr delta /\ 0 <= delta.

(** A preparation step that finds a replacement user, or a team above
    its preferred number of shops. *)
Definition handoverDue (h : Shop.Handover) : Prop :=
  Shop.getTeamModel h <> None
  /\ exists newUser delta,
       Shop.findNewShopUser h = inr newUser
       /\ Shop.getTeamPreferredShopCountDelta h = inr delta
       /\ (newUser <> None \/ delta < 0).

(** The shop object [s] is in the list, once. *)
Definition listedOnce (s : Shop.t) (shops : list Shop.t) : Prop :=
  In (Shop.ref s) (map Shop.ref shops) /\ NoDup (map Shop.ref shops).

(** No object of the list is the shop object [s]. *)
Definition unlisted (s : Shop.t) (shops : list Shop.t) : Prop :=
  ~ In (Shop.ref s) (map Shop.ref shops).

(** The event loop when the timer of the preparation step of [self] is
    the only one, due at [time]. *)
Definition preparing (self : Shop.t) (alertTime workerInterval time : Z)
    (l : Shop.Loop) : Prop :=
  Shop.timers l
  = [{| Shop.due := time;
        Shop.task := Shop.functionPrepareTransfer self alertTime
                       workerInterval |}].

(** A packet without a shop token, or with neither an amount nor an
    [all] flag. *)
Definition malformed (packet : ShopBuyOutHandler.Packet) : bool :=
  negb (ShopBuyOutHandler.hasOwnProperty (ShopBuyOutHandler.p_shop packet))
  || (negb (ShopBuyOutHandler.hasOwnProperty
              (ShopBuyOutHandler.p_amount packet))
      && negb (ShopBuyOutHandler.hasOwnProperty
                 (ShopBuyOutHandler.p_all packet))).

(** The requested amount is zero, negative, or greater than the current
    out balance. *)
Definition refusedAmount (requested outCurrent : number) : bool :=
  gt requested outCurrent || lt requested (Int 0)
  || strictEq requested (Int 0).

(** The handler answered with an error message. *)
Definition answeredError (r : ShopBuyOutHandler.Result) : Prop :=
  exists m, In m (ShopBuyOutHandler.sent r)
            /\ ShopBuyOutHandler.error m = true.

(** The result objects that the assignments of [getVisibilityState] can
    leave behind, in whatever order its callbacks run. *)
Inductive assigned : Factory.VisibilityStateObject -> Prop :=
| assigned_initial : assigned Factory.resultObject0
| assigned_spectator r : assigned r -> assigned (Factory.markSpectator r)
| assigned_pinged r : assigned r -> assigned (Factory.markPinged r)
| assigned_ally r : assigned r -> assigned (Factory.markAlly r)
| assigned_inRange b r : assigned r -> assigned (Factory.markInRange b r).

End Spec.

(** ** A small game, used to run the definitions *)

Module Scenario.
Import JS Game.

(** Users below 10 play in team 1, the others in team 2; user 9 has no
    recent location and user 8 no strength; the strength of any other
    user is its number. *)
Definition teamOf (u : UserRef) : option TeamId :=
  if (u <? 10)%nat then Some 1%nat else Some 2%nat.

Definition users : Users :=
  {| getId := fun u => u;
     hasRecentLocation := fun u => negb (Nat.eqb u 9);
     getLocation := fun u => (inject_Z (Z.of_nat u), 0%Q);
     isTeam := fun u t => inr (Factory.sameTeam (teamOf u) t);
     getStrength :=
       fun u => inr (if Nat.eqb u 8 then None else Some (Z.of_nat u));
     getTeam := fun u => inr (teamOf u) |}.

Definition config : Config :=
  {| factory :=
       {| getProductionIn := fun level => 2 * level;
          getProductionOut := fun level => level;
          getRange := fun level => inject_Z (10 + level);
          getActiveRange := fun level => inject_Z (20 + level);
          attackNewIn := fun x => x / 2;
          attackNewOut := fun x => x / 2;
          attackNewDefence := fun _ => 0 |};
     shop :=
       {| range := 10%Q;
          activeRange := 20%Q;
          getInSellPrice := 2%Q;
          getOutBuyPrice := (3 # 2)%Q;
          getShopLifetime := 5000;
          shopAlertTime := 1000;
          workerInterval := 300 |} |}.

(** A factory of team 1 at level [l]. *)
Definition model (l : Z) : Factory.FactoryModel :=
  {| Factory.team := Some 1%nat; Factory.level := l; Factory.defence := 4;
     Factory.valueIn := 10; Factory.valueOut := 0;
     Factory.location := (0%Q, 0%Q) |}.

Definition world (l : Z) : Factory.World :=
  {| Factory.getFactoryModel := Some (model l);
     Factory.faults := Factory.noFaults;
     Factory.getConfig := inr config;
     Factory.users := users;
     Factory.isInRange :=
       fun a b r => Qle_bool (Qabs (fst a - fst b)) r;
     Factory.getStage := inr 1;
     Factory.getUserState :=
       fun _ => inr {| player := true; special := false;
                       spectator := false |};
     Factory.getGameUser :=
       fun u => inr (Some {| Factory.gu_getTeam := inr (teamOf u) |});
     Factory.userNames := fun _ => inr "user"%string;
     Factory.teamNames := fun _ => inr "team"%string;
     Factory.broadcastData := inr tt;
     Factory.userManager_users := [2; 8; 9; 11; 12; 30]%nat |}.

(** Two enemies and an ally stand in range of the factory; users 8 and 9
    are remembered as well. *)
Definition liveFactory : Factory.t :=
  {| Factory._userVisibleMem := [11; 2; 12; 8; 9]%nat;
     Factory._userRangeMem := [11; 2; 12; 8; 9]%nat;
     Factory._userPingMem := [] |}.

(** The shop of user 1, before it is loaded, and the shop manager of a
    game with two other shops. *)
Definition shopWorld : Shop.World :=
  {| Shop.getConfig := inr config;
     Shop.users := users;
     Shop.getDistanceTo := fun a b => Qabs (fst a - fst b) |}.

Definition liveShop : Shop.t := Shop.new 5%nat 1%nat.

Definition otherShops : list Shop.t :=
  [Shop.new 4%nat 3%nat; Shop.new 6%nat 12%nat].

Definition loop : Shop.Loop :=
  {| Shop.now := 100;
     Shop.timers := [];
     Shop.shops := [Shop.new 4%nat 3%nat; liveShop; Shop.new 6%nat 12%nat];
     Shop.scheduledUsers := [];
     Shop.sent := [] |}.

Definition loadEnv : Shop.LoadEnv :=
  {| Shop.generateToken := inr "tok"%string;
     Shop.load_getConfig := inr config |}.

(** Until time 4700 nobody can take over the shop; from then on user 3
    can. *)
Definition handover (time : Z) : Shop.Handover :=
  {| Shop.getTeamModel := Some 1%nat;
     Shop.findNewShopUser :=
       inr (if time <? 4700 then None else Some 3%nat);
     Shop.getTeamPreferredShopCountDelta := inr 0 |}.

(** The game of the shop of user 1, once loaded with the token "tok";
    every game user owns 10 out goods and 100 money. *)
Definition loadedShop : Shop.t :=
  snd (fst (Shop.load loadEnv liveShop loop)).

Definition liveGame : ShopBuyOutHandler.LiveGame :=
  {| ShopBuyOutHandler.game := 0%nat;
     ShopBuyOutHandler.shops := [loadedShop];
     ShopBuyOutHandler.shopWorld := shopWorld;
     ShopBuyOutHandler.getGameUser := fun _ => None;
     ShopBuyOutHandler.getUser := fun u => inr (Some u) |}.

Definition store : ShopBuyOutHandler.Store :=
  fun _ _ => {| ShopBuyOutHandler.out := Int 10;
                ShopBuyOutHandler.money := Int 100 |}.

(** The socket of the authenticated user [u]. *)
Definition socket (u : UserId) : ShopBuyOutHandler.Socket :=
  {| ShopBuyOutHandler.session :=
       Some {| ShopBuyOutHandler.valid := Some true;
               ShopBuyOutHandler.user := u |} |}.

(** The packet that asks to sell [n] out goods to the shop. *)
Definition packet (n : Z) : ShopBuyOutHandler.Packet :=
  {| ShopBuyOutHandler.p_shop := Some (String "tok");
     ShopBuyOutHandler.p_amount := Some (Number (Int n));
     ShopBuyOutHandler.p_outAmount := Some (Number (Int n));
     ShopBuyOutHandler.p_all := None |}.

End Scenario.

(** ** Factory.js, the callers of the visibility state *)

Module Visibility.
Import JS Game Factory.

(** [isTeam (otherTeam, callback)]. *)
Definition isTeam (w : World) (otherTeam : option TeamId) : outcome bool :=
  match otherTeam with
  | None => CalledBack (inr false)
  | Some other =>
      match getFactoryModel w with
      | None => Thrown TypeError_null
      | Some m =>
          team <- read (f_getTeam (faults w)) (team m) ;;
          match team with
          | None => CalledBack (inr false)
          | Some t => CalledBack (inr (Nat.eqb t other))
          end
      end
  end.

(** [isVisibleFor (liveUser, callback)]. *)
Definition isVisibleFor (w : World) (f : t) (liveUser : option UserRef)
  : outcome bool :=
  gameStage <- getStage w ;;
  if 2 <=? gameStage then CalledBack (inr true)
  else
    andThen (getVisibilityState w f liveUser) (fun visibilityState =>
      CalledBack (inr (visible visibilityState))).

(** [updateVisibilityState (liveUser, callback)]: what the callback
    receives ([None] when it is called with an error of [null] and no
    second argument) and the live factory afterwards. *)
Definition updateVisibilityState (w : World) (f : t)
    (liveUser : option UserRef) : outcome (option bool) * t :=
  match liveUser with
  | None => (CalledBack (inr None), f)
  | Some u =>
      match getVisibilityState w f liveUser with
      | CalledBack (inl err) => (CalledBack (inl err), f)
      | NoCallback => (NoCallback, f)
      | Thrown x => (Thrown x, f)
      | CalledBack (inr visibilityData) =>
          let '(changed1, f1) :=
            setInVisibilityMemory f u (visible visibilityData) in
          let '(changed2, f2) :=
            setInRangeMemory f1 u (inRange visibilityData) in
          let stateChanged := changed1 || changed2 in
          if stateChanged then
            match broadcastData w with
            | inl err => (CalledBack (inl err), f2)
            | inr _ => (CalledBack (inr (Some true)), f2)
            end
          else (CalledBack (inr (Some false)), f2)
      end
  end.

(** What the game answers about the user model handed to [canModify]:
    its game user, and its live user. *)
Record Modifier : Type := {
  mod_getGameUser : cb (option GameUser);
  mod_getUser : cb (option UserRef)
}.

(** [canModify (user, callback)]. *)
Definition canModify (w : World) (f : t) (user : Modifier) : outcome bool :=
  match getFactoryModel w with
  | None => Thrown TypeError_null
  | Some m =>
      factoryTeam <- read (f_getTeam (faults w)) (team m) ;;
      gameUser <- mod_getGameUser user ;;
      match gameUser with
      | None => Thrown TypeError_null
      | Some g =>
          userTeam <- gu_getTeam g ;;
          match factoryTeam, userTeam with
          | Some ft, Some ut =>
              if negb (Nat.eqb ft ut) then CalledBack (inr false)
              else
                liveUser <- mod_getUser user ;;
                andThen (isUserInRange w f liveUser) (fun inRange =>
                  CalledBack (inr inRange))
          | _, _ => CalledBack (inr false)
          end
      end
  end.

(** The live factories that [updateVisibilityState] and the ping memory
    build, each call in a world of its own. *)
Inductive maintained : t -> Prop :=
| maintained_new : maintained new
| maintained_update w f liveUser :
    maintained f -> maintained (snd (updateVisibilityState w f liveUser))
| maintained_ping i f u b s :
    maintained f -> maintained (snd (fst (setInPingMemory i f u b s))).

End Visibility.

(** ** Factory.js, pings *)

Module Ping.
Import JS Game Factory.

(** The timer that [pingFor] sets: its delay and the user whose ping it
    ends. *)
Record Timer : Type := {
  delay : Z;
  user : UserRef
}.

(** [pingFor (liveUser, pingDuration, sendLocationUpdate, callback)] for a
    live user: the guard [liveUser === null && pingDuration <= 0] is then
    false, whatever the duration.  The result is the live factory, the
    location broadcasts issued and the timer set, if any. *)
Definition pingFor (locationUpdateInterval : Z) (f : t) (liveUser : UserRef)
    (pingDuration : Z) (sendLocationUpdate : option bool)
  : t * list LocationBroadcast * option Timer :=
  let invalid := false && (pingDuration <=? 0) in
  if invalid then (f, [], None)
  else
    let '(_, f', sent) :=
      setInPingMemory locationUpdateInterval f liveUser true
        sendLocationUpdate in
    (f', sent, Some {| delay := pingDuration; user := liveUser |}).

(** The function handed to [setTimeout] by [pingFor], when it runs. *)
Definition decay (locationUpdateInterval : Z) (f : t) (k : Timer)
  : t * list LocationBroadcast :=
  let '(_, f', sent) :=
    setInPingMemory locationUpdateInterval f (user k) false (Some true) in
  (f', sent).

(** [setTimeout] on the queue of the pending timers, each with the time
    at which it is due: the new timer fires after the timers that are due
    at the same time or earlier. *)
Fixpoint enqueue (x : Z * Timer) (q : list (Z * Timer))
  : list (Z * Timer) :=
  match q with
  | [] => [x]
  | y :: rest => if fst y <=? fst x then y :: enqueue x rest else x :: q
  end.

(** The pending timers fire one after the other; a broadcast is kept
    with the time at which it is issued. *)
Fixpoint fire (locationUpdateInterval : Z) (f : t) (q : list (Z * Timer))
  : t * list (Z * LocationBroadcast) :=
  match q with
  | [] => (f, [])
  | (time, k) :: rest =>
      let '(f1, sent) := decay locationUpdateInterval f k in
      let '(f2, later) := fire locationUpdateInterval f1 rest in
      (f2, map (pair time) sent ++ later)
  end.

End Ping.

(** ** Factory.js, ticks one after the other *)

Module Production.
Import JS Game Factory.

(** The world once the stored factory is [m]. *)
Definition withModel (w : World) (m : option FactoryModel) : World :=
  {| getFactoryModel := m;
     faults := faults w;
     getConfig := getConfig w;
     users := users w;
     isInRange := isInRange w;
     getStage := getStage w;
     getUserState := getUserState w;
     getGameUser := getGameUser w;
     userNames := userNames w;
     teamNames := teamNames w;
     broadcastData := broadcastData w;
     userManager_users := userManager_users w |}.

(** [n] ticks in a row, each on the factory the one before has left. *)
Fixpoint ticks (n : nat) (w : World) (f : t) : World :=
  match n with
  | O => w
  | S n' => ticks n' (withModel w (snd (tick w f))) f
  end.

End Production.

(** ** Factory.js, the factory data sent to the clients *)

Module FactoryData.
Import JS Game Factory.

(** The [sockets] argument of [sendData]. *)
Inductive SocketsArg : Type :=
| NoSockets
| OneSocket (socket : nat)
| SocketArray (sockets : list nat).

(** "Parse the sockets". *)
Definition parseSockets (sockets : SocketsArg) : list nat :=
  match sockets with
  | NoSockets => []
  | OneSocket socket => [socket]
  | SocketArray sockets => sockets
  end.

(** The [factoryData] object; a property that was never assigned is
    [None].  [U] is the type of the defence upgrades object of the game
    configuration. *)
Record data (U : Type) : Type := {
  d_visible : option bool;
  d_canManage : option bool;
  d_name : option string;
  d_level : option Z;
  d_defence : option Z;
  d_conquerValue : option Z;
  d_conquerUserCount : option Z;
  d_in : option Z;
  d_out : option Z;
  d_creatorName : option string;
  d_teamName : option string;
  d_productionIn : option Z;
  d_productionOut : option Z;
  d_defenceUpgrades : option U;
  d_nextLevelCost : option Z;
  d_inRange : option bool;
  d_ally : option bool
}.
Arguments d_visible {U} d.
Arguments d_canManage {U} d.
Arguments d_name {U} d.
Arguments d_level {U} d.
Arguments d_defence {U} d.
Arguments d_conquerValue {U} d.
Arguments d_conquerUserCount {U} d.
Arguments d_in {U} d.
Arguments d_out {U} d.
Arguments d_creatorName {U} d.
Arguments d_teamName {U} d.
Arguments d_productionIn {U} d.
Arguments d_productionOut {U} d.
Arguments d_defenceUpgrades {U} d.
Arguments d_nextLevelCost {U} d.
Arguments d_inRange {U} d.
Arguments d_ally {U} d.

(** A [FACTORY_DATA] packet on its way: to a socket ([sendPacket]) or to
    all the sockets of a user ([sendPacketUser]). *)
Inductive Sent (U : Type) : Type :=
| ToSocket (socket : nat) (d : data U)
| ToUser (user : UserId) (d : data U).
Arguments ToSocket {U} socket d.
Arguments ToUser {U} user d.

(** What [sendData] reaches beyond the world of the factory: the game of
    the request and the user model it is for, the remaining accessors of
    the factory model, and the two functions of [gameConfig.factory] that
    price the next level and list the defence upgrades. *)
Record Env (U : Type) : Type := {
  user : UserId;
  getUser : cb (option UserRef);
  hasManagePermission : cb bool;
  gameId : nat;
  factoryGame : cb (option nat);
  getLiveFactory : cb (option t);
  name : string;
  creator : cb (option (cb string));
  getLevelCost : Z -> Z;
  getDefenceUpgrades : Z -> U
}.
Arguments user {U} e.
Arguments getUser {U} e.
Arguments hasManagePermission {U} e.
Arguments gameId {U} e.
Arguments factoryGame {U} e.
Arguments getLiveFactory {U} e.
Arguments name {U} e.
Arguments creator {U} e.
Arguments getLevelCost {U} e.
Arguments getDefenceUpgrades {U} e.

(** [getNextLevelCost (callback)]. *)
Definition getNextLevelCost {U : Type} (w : World) (e : Env U) : outcome Z :=
  match getFactoryModel w with
  | None => Thrown TypeError_null
  | Some m =>
      gameConfig <- getConfig w ;;
      level <- read (f_getLevel (faults w)) (level m) ;;
      CalledBack (inr (getLevelCost e (level + 1)))
  end.

(** [getDefenceUpgrades (callback)]. *)
Definition getDefenceUpgrades_ {U : Type} (w : World) (e : Env U)
  : outcome U :=
  match getFactoryModel w with
  | None => Thrown TypeError_null
  | Some m =>
      gameConfig <- getConfig w ;;
      defence <- read (f_getDefence (faults w)) (defence m) ;;
      CalledBack (inr (getDefenceUpgrades e defence))
  end.

(** [sendFactoryData]: one packet for each socket, or one for the user
    when there is no socket. *)
Definition sendFactoryData {U : Type} (e : Env U) (sockets : list nat)
    (factoryData : data U) : list (Sent U) :=
  match sockets with
  | [] => [ToUser (user e) factoryData]
  | _ :: _ => map (fun socket => ToSocket socket factoryData) sockets
  end.

(** What a run of [sendData] ends with, and the packets it has sent. *)
Definition run (U : Type) : Type := (outcome unit * list (Sent U))%type.

Definition stop {U : Type} (o : outcome unit) : run U := (o, []).

(** Sequencing for [sendData]: an error is called back, an exception
    escapes, and in both cases nothing is sent. *)
Definition getting {U A : Type} (o : outcome A) (k : A -> run U) : run U :=
  match o with
  | CalledBack (inl err) => stop (CalledBack (inl err))
  | CalledBack (inr a) => k a
  | NoCallback => stop NoCallback
  | Thrown x => stop (Thrown x)
  end.

(** [sendData (user, sockets, callback)].  The calls under a latch are
    taken in the order in which the source issues them; a call issued
    from a callback completes after the calls issued before it. *)
Definition sendData {U : Type} (w : World) (e : Env U) (f : t)
    (sockets : SocketsArg) : run U :=
  let sockets := parseSockets sockets in
  getting (CalledBack (getUser e)) (fun liveUser =>
  getting (CalledBack (hasManagePermission e)) (fun canManage =>
  getting (Visibility.isVisibleFor w f liveUser) (fun visible =>
  if negb visible then
    (CalledBack (inr tt),
     sendFactoryData e sockets
       {| d_visible := Some visible; d_canManage := Some canManage;
          d_name := None; d_level := None; d_defence := None;
          d_conquerValue := None; d_conquerUserCount := None;
          d_in := None; d_out := None; d_creatorName := None;
          d_teamName := None; d_productionIn := None;
          d_productionOut := None; d_defenceUpgrades := None;
          d_nextLevelCost := None; d_inRange := None; d_ally := None |})
  else
    match getFactoryModel w with
    | None => stop (Thrown TypeError_null)
    | Some m =>
    getting (CalledBack (factoryGame e)) (fun result =>
    match result with
    | None => stop (Thrown TypeError_null)
    | Some resultId =>
    if negb (Nat.eqb (gameId e) resultId)
    then stop (CalledBack (inl "The factory is not part of this game"%string))
    else
    getting (CalledBack (getLiveFactory e)) (fun liveFactory =>
    match liveFactory with
    | None => stop (Thrown TypeError_null)
    | Some liveFactory =>
    getting (CalledBack (read (f_getName (faults w)) (name e))) (fun name =>
    getting (CalledBack (read (f_getLevel (faults w)) (level m))) (fun level =>
    getting (CalledBack (read (f_getDefence (faults w)) (defence m)))
      (fun defence =>
    getting (getConquer w liveFactory) (fun conquer =>
    getting (CalledBack (read (f_getIn (faults w)) (valueIn m))) (fun input =>
    getting (CalledBack (read (f_getOut (faults w)) (valueOut m)))
      (fun output =>
    getting (CalledBack (creator e)) (fun creator =>
    match creator with
    | None => stop (Thrown TypeError_null)
    | Some getDisplayName =>
    getting (getProductionIn w) (fun productionIn =>
    getting (getProductionOut w) (fun productionOut =>
    getting (getDefenceUpgrades_ w e) (fun defenceUpgrades =>
    getting (getNextLevelCost w e) (fun nextLevelCost =>
    getting (CalledBack (getUser e)) (fun liveUser' =>
    getting (CalledBack getDisplayName) (fun displayName =>
    getting (CalledBack (read (f_getTeam (faults w)) (team m)))
      (fun factoryTeam =>
    match factoryTeam with
    | None => stop (Thrown TypeError_null)
    | Some factoryTeam =>
    getting (getVisibilityState w f liveUser') (fun visibilityState =>
    getting (CalledBack (teamNames w factoryTeam)) (fun teamName =>
    (CalledBack (inr tt),
     sendFactoryData e sockets
       {| d_visible := Some visible; d_canManage := Some canManage;
          d_name := Some name; d_level := Some level;
          d_defence := Some defence;
          d_conquerValue := Some (fst conquer);
          d_conquerUserCount := Some (snd conquer);
          d_in := Some input; d_out := Some output;
          d_creatorName := Some displayName;
          d_teamName := Some teamName;
          d_productionIn := Some productionIn;
          d_productionOut := Some productionOut;
          d_defenceUpgrades := Some defenceUpgrades;
          d_nextLevelCost := Some nextLevelCost;
          d_inRange := Some (inRange visibilityState);
          d_ally := Some (ally visibilityState) |})))
    end)))))))
    end)))))))
    end)
    end)
    end))).

End FactoryData.

(** ** More vocabulary *)

Module Terms.
Import JS Game.

(** Every user of the range memory is in the visibility memory. *)
Definition rangeWithinVisibility (f : Factory.t) : Prop :=
  forall u, Factory.isInRangeMemory f u = true ->
            Factory.isInVisibilityMemory f u = true.

(** What a user model has to be for the in-range check of a factory: a
    player or a special player, located, in a game that is not
    finished. *)
Definition rangeChecked (us : Users) (u : UserRef) (s : UserState)
    (gameStage : Z) : bool :=
  (player s || special s) && hasRecentLocation us u && (gameStage <? 2).

(** The team of the game user that [getGameUser] calls back, [None] when
    there is no game user. *)
Definition teamOfGameUser (g : option Factory.GameUser)
    (userTeam : option TeamId) : Prop :=
  match g with
  | None => userTeam = None
  | Some gu => Factory.gu_getTeam gu = inr userTeam
  end.

(** The data carried by a packet. *)
Definition payload {U : Type} (p : FactoryData.Sent U) : FactoryData.data U :=
  match p with
  | FactoryData.ToSocket _ d => d
  | FactoryData.ToUser _ d => d
  end.

(** Factory data that tells nothing but the visibility and the right to
    manage. *)
Definition bare {U : Type} (d : FactoryData.data U) : Prop :=
  FactoryData.d_name d = None /\ FactoryData.d_level d = None
  /\ FactoryData.d_defence d = None
  /\ FactoryData.d_conquerValue d = None
  /\ FactoryData.d_conquerUserCount d = None
  /\ FactoryData.d_in d = None /\ FactoryData.d_out d = None
  /\ FactoryData.d_creatorName d = None
  /\ FactoryData.d_teamName d = None
  /\ FactoryData.d_productionIn d = None
  /\ FactoryData.d_productionOut d = None
  /\ FactoryData.d_defenceUpgrades d = None
  /\ FactoryData.d_nextLevelCost d = None
  /\ FactoryData.d_inRange d = None /\ FactoryData.d_ally d = None.

(** A preparation step that cannot go on: the owner has no team, or one
    of the two queries fails. *)
Definition handoverStuck (h : Shop.Handover) : Prop :=
  Shop.getTeamModel h = None
  \/ (exists err, Shop.findNewShopUser h = inl err)
  \/ (exists err, Shop.getTeamPreferredShopCountDelta h = inl err).

(** The accesses to the factory model that a capture goes through, none
    of them failing. *)
Definition captureAccesses (fs : Factory.Faults) : Prop :=
  Factory.f_getTeam fs = None /\ Factory.f_getLevel fs = None
  /\ Factory.f_getIn fs = None /\ Factory.f_getOut fs = None
  /\ Factory.f_getDefence fs = None
  /\ Factory.f_setTeam fs = None /\ Factory.f_setLevel fs = None
  /\ Factory.f_setIn fs = None /\ Factory.f_setOut fs = None
  /\ Factory.f_setDefence fs = None.

(** The three names [attack] fetches once the capture is written, none
    of them failing. *)
Definition captureNames (w : Factory.World) (user : UserRef) (T : TeamId)
  : Prop :=
  Factory.f_getName (Factory.faults w) = None
  /\ (exists name, Factory.userNames w user = inr name)
  /\ (exists name, Factory.teamNames w T = inr name).

(** The users of the game can be told of an attack on a factory of team
    [factoryTeam]: each of them answers [getTeam] without an error, and
    if one of them has a team, the factory has one. *)
Definition notifiable (w : Factory.World) (factoryTeam : option TeamId)
  : Prop :=
  forall u, In u (Factory.userManager_users w) ->
    exists otherTeam,
      getTeam (Factory.users w) u = inr otherTeam
      /\ (otherTeam <> None -> factoryTeam <> None).

(** The factory [m] once the team [T] has captured it under the game
    configuration [gameConfig]. *)
Definition captured (gameConfig : Config) (T : TeamId)
    (m : Factory.FactoryModel) : Factory.FactoryModel :=
  {| Factory.team := Some T;
     Factory.level := Factory.level m - 1;
     Factory.defence :=
       attackNewDefence (factory gameConfig) (Factory.defence m);
     Factory.valueIn := attackNewIn (factory gameConfig) (Factory.valueIn m);
     Factory.valueOut :=
       attackNewOut (factory gameConfig) (Factory.valueOut m);
     Factory.location := Factory.location m |}.

End Terms.

(** ** More of the small game *)

Module Cases.
Import JS Game.

(** The factory of [Scenario], with nobody remembered. *)
Definition emptyFactory : Factory.t := Factory.new.

(** User 2, an ally at distance 2; user 30, an enemy at distance 30; the
    range of the factory at level 3 is 13, its active range 23. *)
Definition modifier (u : UserRef) : Visibility.Modifier :=
  {| Visibility.mod_getGameUser :=
       inr (Some {| Factory.gu_getTeam := inr (Scenario.teamOf u) |});
     Visibility.mod_getUser := inr (Some u) |}.

(** The request for the factory data of the user model [u], in the game
    [g] of the factory. *)
Definition request (g : nat) (u : UserRef) : FactoryData.Env unit :=
  {| FactoryData.user := u;
     FactoryData.getUser := inr (Some u);
     FactoryData.hasManagePermission := inr false;
     FactoryData.gameId := g;
     FactoryData.factoryGame := inr (Some 0%nat);
     FactoryData.getLiveFactory := inr (Some Scenario.liveFactory);
     FactoryData.name := "Lab"%string;
     FactoryData.creator := inr (Some (inr "Ann"%string));
     FactoryData.getLevelCost := fun level => 100 * level;
     FactoryData.getDefenceUpgrades := fun _ => tt |}.

(** The world of [Scenario] around a factory that no team owns. *)
Definition teamless : Factory.World :=
  Production.withModel (Scenario.world 3)
    (Some (Factory.setTeam None (Scenario.model 3))).

(** A preparation step that never finds its owner in a team. *)
Definition noTeam (time : Z) : Shop.Handover :=
  {| Shop.getTeamModel := None;
     Shop.findNewShopUser := inr None;
     Shop.getTeamPreferredShopCountDelta := inr 0 |}.

End Cases.

(** * Properties *)

(** ** Arrays *)

Module ArrayFacts.
Import JS.

Section Generic.
Context {A : Type} (same : A -> A -> bool).

Lemma indexOf_from_absent (l : list A) (x : A) (i : Z) :
  existsb (fun y => same y x) l = false -> indexOf_from same l x i = -1.
Proof.
  revert i; induction l as [|y t IH]; intros i H; simpl in *.
  - reflexivity.
  - apply orb_false_iff in H as [Hy Ht]. rewrite Hy. now apply IH.
Qed.

(** A found element splits the array at the index returned. *)
Lemma indexOf_from_split (l : list A) (x : A) (i : Z) :
  existsb (fun y => same y x) l = true ->
  exists l1 y l2,
    l = l1 ++ y :: l2 /\ same y x = true
    /\ existsb (fun z => same z x) l1 = false
    /\ indexOf_from same l x i = i + Z.of_nat (List.length l1).
Proof.
  revert i; induction l as [|y t IH]; intros i H; simpl in *.
  - discriminate.
  - destruct (same y x) eqn:Hy.
    + exists [], y, t. simpl. repeat split; auto. lia.
    + simpl in H. destruct (IH (i + 1) H) as (l1 & z & l2 & -> & Hz & Hl1 & Hi).
      exists (y :: l1), z, l2. simpl. rewrite Hy, Hl1, Hi.
      repeat split; auto. lia.
Qed.

Lemma indexOf_found (l : list A) (x : A) :
  (0 <=? indexOf same l x) = existsb (fun y => same y x) l.
Proof.
  unfold indexOf. destruct (existsb (fun y => same y x) l) eqn:H.
  - destruct (indexOf_from_split l x 0 H) as (l1 & y & l2 & _ & _ & _ & ->).
    apply Z.leb_le. lia.
  - now rewrite indexOf_from_absent.
Qed.

(** Removing one element at a valid index. *)
Lemma splice_middle (l1 l2 : list A) (y : A) :
  splice (l1 ++ y :: l2) (Z.of_nat (List.length l1)) 1 = l1 ++ l2.
Proof.
  unfold splice. rewrite length_app. simpl List.length.
  set (n := List.length l1). set (k := List.length l2).
  assert (Hneg : (Z.of_nat n <? 0) = false) by (apply Z.ltb_ge; lia).
  rewrite Hneg.
  replace (Z.min (Z.of_nat n) (Z.of_nat (n + S k))) with (Z.of_nat n) by lia.
  replace (Z.min (Z.max 1 0) (Z.of_nat (n + S k) - Z.of_nat n)) with 1 by lia.
  replace (Z.to_nat (Z.of_nat n + 1)) with (S n) by lia.
  rewrite Nat2Z.id. subst n.
  rewrite firstn_app, Nat.sub_diag, firstn_all, firstn_O, app_nil_r.
  f_equal.
  replace (S (List.length l1)) with (List.length (l1 ++ [y]))
    by (rewrite length_app; simpl; lia).
  replace (l1 ++ y :: l2) with ((l1 ++ [y]) ++ l2)
    by (rewrite <- app_assoc; reflexivity).
  rewrite skipn_app, Nat.sub_diag, skipn_all. reflexivity.
Qed.

(** [splice (indexOf (x), 1)] on an array that holds [x]. *)
Lemma splice_indexOf (l : list A) (x : A) :
  existsb (fun y => same y x) l = true ->
  exists l1 y l2,
    l = l1 ++ y :: l2 /\ same y x = true
    /\ existsb (fun z => same z x) l1 = false
    /\ splice l (indexOf same l x) 1 = l1 ++ l2.
Proof.
  intros H. unfold indexOf.
  destruct (indexOf_from_split l x 0 H) as (l1 & y & l2 & -> & Hy & Hl1 & ->).
  exists l1, y, l2. repeat split; auto.
  rewrite Z.add_0_l. apply splice_middle.
Qed.
End Generic.

(** Arrays of live users: [indexOf] compares references. *)

Lemma existsb_eqb_In (l : list nat) (x : nat) :
  existsb (fun y => Nat.eqb y x) l = true <-> In x l.
Proof.
  rewrite existsb_exists. split.
  - intros (y & Hy & E). apply Nat.eqb_eq in E. now subst.
  - intros H. exists x. split; auto. apply Nat.eqb_refl.
Qed.

Lemma member_In (l : list nat) (x : nat) :
  (0 <=? indexOf Nat.eqb l x) = true <-> In x l.
Proof. rewrite indexOf_found. apply existsb_eqb_In. Qed.

Lemma member_not_In (l : list nat) (x : nat) :
  (0 <=? indexOf Nat.eqb l x) = false <-> ~ In x l.
Proof.
  rewrite <- member_In. destruct (0 <=? indexOf Nat.eqb l x); split; intuition congruence.
Qed.

Lemma push_member (l : list nat) (x : nat) :
  (0 <=? indexOf Nat.eqb (push l x) x) = true.
Proof. apply member_In. unfold push. apply in_or_app. right. now left. Qed.

Lemma push_NoDup (l : list nat) (x : nat) :
  ~ In x l -> NoDup l -> NoDup (push l x).
Proof.
  intros Hx Hl. unfold push. apply NoDup_app; auto.
  - repeat constructor. intros [].
  - intros y Hy [E|[]]. subst. contradiction.
Qed.

Lemma remove_split (l : list nat) (x : nat) :
  In x l -> exists l1 l2,
    l = l1 ++ x :: l2 /\ splice l (indexOf Nat.eqb l x) 1 = l1 ++ l2.
Proof.
  intros H. apply existsb_eqb_In in H.
  destruct (splice_indexOf Nat.eqb l x H) as (l1 & y & l2 & -> & Hy & _ & E).
  apply Nat.eqb_eq in Hy. subst y. eauto.
Qed.

Lemma remove_NoDup (l : list nat) (x : nat) :
  In x l -> NoDup l -> NoDup (splice l (indexOf Nat.eqb l x) 1).
Proof.
  intros H Hl. destruct (remove_split l x H) as (l1 & l2 & -> & ->).
  now apply NoDup_remove_1 in Hl.
Qed.

Lemma remove_member (l : list nat) (x : nat) :
  In x l -> NoDup l ->
  (0 <=? indexOf Nat.eqb (splice l (indexOf Nat.eqb l x) 1) x) = false.
Proof.
  intros H Hl. apply member_not_In.
  destruct (remove_split l x H) as (l1 & l2 & -> & ->).
  now apply NoDup_remove_2 in Hl.
Qed.

(** The memory after a setter, whatever the branch taken. *)
Lemma set_NoDup (l : list nat) (x : nat) (b : bool) :
  NoDup l ->
  (0 <=? indexOf Nat.eqb l x) = negb b ->
  NoDup (if b then push l x else splice l (indexOf Nat.eqb l x) 1).
Proof.
  intros Hl Hm. destruct b; simpl in Hm.
  - apply push_NoDup; auto. now apply member_not_In.
  - apply remove_NoDup; auto. now apply member_In.
Qed.

Lemma set_member (l : list nat) (x : nat) (b : bool) :
  NoDup l ->
  (0 <=? indexOf Nat.eqb l x) = negb b ->
  (0 <=? indexOf Nat.eqb
           (if b then push l x else splice l (indexOf Nat.eqb l x) 1) x) = b.
Proof.
  intros Hl Hm. destruct b; simpl in Hm.
  - apply push_member.
  - apply remove_member; auto. now apply member_In.
Qed.

Lemma eqb_false_negb (a b : bool) : Bool.eqb a b = false -> a = negb b.
Proof. destruct a, b; simpl; congruence. Qed.

End ArrayFacts.

(** ** The memories of factories and shops *)

Module MemoryFacts.
Import JS Game ArrayFacts Spec.

Lemma setter_ok_same (l : list UserRef) (u : UserRef) (b : bool) :
  NoDup l -> Bool.eqb (0 <=? indexOf Nat.eqb l u) b = true ->
  setter_ok l l false u b.
Proof.
  intros Hl E. apply Bool.eqb_prop in E. unfold setter_ok.
  repeat split; auto; try congruence.
Qed.

Lemma setter_ok_changed (l : list UserRef) (u : UserRef) (b : bool) :
  NoDup l -> Bool.eqb (0 <=? indexOf Nat.eqb l u) b = false ->
  setter_ok l (if b then push l u else splice l (indexOf Nat.eqb l u) 1)
    true u b.
Proof.
  intros Hl E. pose proof (eqb_false_negb _ _ E) as Hm. unfold setter_ok.
  repeat split; auto.
  - intros _. rewrite Hm. now destruct b.
  - now apply set_member.
  - now apply set_NoDup.
Qed.

Ltac setter f u b :=
  match goal with
  | |- context [Bool.eqb ?m b] =>
      let E := fresh "E" in
      destruct (Bool.eqb m b) eqn:E; simpl;
      [ apply setter_ok_same | apply setter_ok_changed ]; assumption
  end.



Lemma setInVisibilityMemory_ok (f : Factory.t) (u : UserRef) (b : bool) :
  NoDup (Factory._userVisibleMem f) ->
  setter_ok (Factory._userVisibleMem f)
    (Factory._userVisibleMem (snd (Factory.setInVisibilityMemory f u b)))
    (fst (Factory.setInVisibilityMemory f u b)) u b.
Proof.
  intros H. unfold Factory.setInVisibilityMemory, Factory.isInVisibilityMemory.
  setter f u b.
Qed.

Lemma Factory_setInRangeMemory_ok (f : Factory.t) (u : UserRef) (b : bool) :
  NoDup (Factory._userRangeMem f) ->
  setter_ok (Factory._userRangeMem f)
    (Factory._userRangeMem (snd (Factory.setInRangeMemory f u b)))
    (fst (Factory.setInRangeMemory f u b)) u b.
Proof.
  intros H. unfold Factory.setInRangeMemory, Factory.isInRangeMemory.
  setter f u b.
Qed.

Lemma setInPingMemory_ok (i : Z) (f : Factory.t) (u : UserRef) (b : bool)
    (s : option bool) :
  NoDup (Factory._userPingMem f) ->
  setter_ok (Factory._userPingMem f)
    (Factory._userPingMem (snd (fst (Factory.setInPingMemory i f u b s))))
    (fst (fst (Factory.setInPingMemory i f u b s))) u b.
Proof.
  intros H. unfold Factory.setInPingMemory, Factory.isInPingMemory.
  setter f u b.
Qed.




End MemoryFacts.

(** ** The live factory *)

Module FactoryFacts.
Import JS Game Factory Spec.

(** *** Visibility state *)

Create HintDb visibility.

Lemma coherent_resultObject0 : coherent resultObject0.
Proof. unfold coherent; simpl; discriminate. Qed.

Lemma coherent_markSpectator r : coherent r -> coherent (markSpectator r).
Proof. unfold coherent; simpl; auto. Qed.

Lemma coherent_markPinged r : coherent r -> coherent (markPinged r).
Proof. unfold coherent; simpl; auto. Qed.

Lemma coherent_markAlly r : coherent r -> coherent (markAlly r).
Proof. unfold coherent; simpl; auto. Qed.

Lemma coherent_markInRange b r : coherent r -> coherent (markInRange b r).
Proof.
  unfold coherent; destruct b; simpl; auto.
  intros H H'. apply H.
  destruct (ally r), (inRange r), (pinged r); simpl in *; congruence.
Qed.

Lemma coherent_if (c : bool) r1 r2 :
  coherent r1 -> coherent r2 -> coherent (if c then r1 else r2).
Proof. now destruct c. Qed.

#[local] Hint Resolve coherent_resultObject0 coherent_markSpectator
  coherent_markPinged coherent_markAlly coherent_markInRange coherent_if
  : visibility.

(** The flags stay coherent in whatever order the callbacks assign
    them. *)
Lemma assigned_coherent r : assigned r -> coherent r.
Proof. induction 1; auto with visibility. Qed.

(** Every result object handed to the callback is coherent. *)
Lemma getVisibilityState_coherent w f u r :
  getVisibilityState w f u = CalledBack (inr r) -> coherent r.
Proof.
  unfold getVisibilityState, bind, andThen.
  destruct u as [u|]; [|intros [= <-]; auto with visibility].
  destruct (getFactoryModel w) as [m|]; [|intros [= <-]; auto with visibility].
  destruct (read (f_getTeam (faults w)) (team m)) as [?|factoryTeam];
    [discriminate|].
  destruct (getGameUser w u) as [?|gameUser]; [discriminate|].
  destruct (getStage w) as [?|gameStage]; [discriminate|].
  destruct (match gameUser with
            | Some g => gu_getTeam g
            | None => inr None
            end) as [?|userTeam]; [discriminate|].
  destruct (getUserState w u) as [?|userState]; [discriminate|].
  destruct ((player userState || special userState)
            && hasRecentLocation (users w) u && (gameStage <? 2)).
  - destruct (isUserInRange w f (Some u)) as [[?|result]| |];
      try discriminate.
    intros [= <-]. auto 12 with visibility.
  - intros [= <-]. auto 12 with visibility.
Qed.

Lemma getVisibilityState_null w f :
  getVisibilityState w f None = CalledBack (inr resultObject0).
Proof. reflexivity. Qed.

Lemma getVisibilityState_no_model w f u :
  getFactoryModel w = None ->
  getVisibilityState w f u = CalledBack (inr resultObject0).
Proof. intros H. unfold getVisibilityState. rewrite H. now destruct u. Qed.

(** C10.  In every result object that [getVisibilityState] calls back,
    [visible] is true whenever [ally], [inRange] or [pinged] is; for a
    null live user, and for a factory whose model is missing, the result
    object is called back with all four flags false. *)
Theorem getVisibilityState_flags :
  (forall w f u r,
      getVisibilityState w f u = CalledBack (inr r) ->
      ally r = true \/ inRange r = true \/ pinged r = true ->
      visible r = true)
  /\ (forall w f u,
        u = None \/ getFactoryModel w = None ->
        exists r,
          getVisibilityState w f u = CalledBack (inr r)
          /\ ally r = false /\ visible r = false
          /\ inRange r = false /\ pinged r = false).
Proof.
  split.
  - intros w f u r H Hflag.
    apply (getVisibilityState_coherent w f u r H).
    destruct Hflag as [-> | [-> | ->]];
      rewrite ?orb_true_r; reflexivity.
  - intros w f u [-> | H]; exists resultObject0; repeat split.
    now apply getVisibilityState_no_model.
Qed.

Lemma getVisibilityState_flags_witness :
  getVisibilityState (Scenario.world 3) Scenario.liveFactory (Some 2%nat)
  = CalledBack (inr {| ally := true; visible := true; inRange := true;
                       pinged := false |})
  /\ visible {| ally := true; visible := true; inRange := true;
                pinged := false |} = true.
Proof.
  split.
  - vm_compute. reflexivity.
  - apply (proj1 getVisibilityState_flags (Scenario.world 3)
             Scenario.liveFactory (Some 2%nat)).
    + vm_compute. reflexivity.
    + left. reflexivity.
Defined.

(** *** Conquer value *)

Section Tally.
Variable w : World.
Variable factoryTeam : option TeamId.

Let sum (l : list UserRef) : Z :=
  fold_right Z.add 0
    (map (signedStrength (users w) factoryTeam) (located (users w) l)).

Let count (l : list UserRef) : Z :=
  Z.of_nat (List.length (filter (contributes (users w))
                           (located (users w) l))).

Lemma tally_error (l : list UserRef) (e : Error) :
  fold_left (conquerUser w factoryTeam) l (inl e) = inl e.
Proof. induction l; simpl; auto. Qed.

(** A tally that ends without error has added the signed strengths. *)
Lemma tally_sound (l : list UserRef) (c n c' n' : Z) :
  fold_left (conquerUser w factoryTeam) l (inr (c, n)) = inr (c', n') ->
  c' = c + sum l /\ n' = n + count l.
Proof.
  revert c n. induction l as [|u l IH]; intros c n; simpl.
  - intros [= <- <-]. unfold sum, count. simpl. lia.
  - unfold sum, count, located, contributes, signedStrength in *. simpl.
    destruct (hasRecentLocation (users w) u); simpl.
    + destruct (isTeam (users w) u factoryTeam) as [e|a].
      { rewrite tally_error. discriminate. }
      destruct (getStrength (users w) u) as [e|[s|]].
      { rewrite tally_error. discriminate. }
      * intros H. apply IH in H. simpl. destruct a; simpl; lia.
      * intros H. apply IH in H. simpl. lia.
    + apply IH.
Qed.

(** When no located user fails to answer, the tally ends without
    error. *)
Lemma tally_total (l : list UserRef) (c n : Z) :
  (forall u, In u l -> hasRecentLocation (users w) u = true ->
     (exists a, isTeam (users w) u factoryTeam = inr a)
     /\ (exists s, getStrength (users w) u = inr s)) ->
  fold_left (conquerUser w factoryTeam) l (inr (c, n))
  = inr (c + sum l, n + count l).
Proof.
  revert c n. induction l as [|u l IH]; intros c n Hok; simpl.
  - unfold sum, count. simpl. now rewrite !Z.add_0_r.
  - assert (Hl : forall v, In v l ->
              hasRecentLocation (users w) v = true ->
              (exists a, isTeam (users w) v factoryTeam = inr a)
              /\ (exists s, getStrength (users w) v = inr s))
      by (intros v Hv; apply Hok; now right).
    pose proof (Hok u (or_introl eq_refl)) as Hu.
    unfold sum, count, located, contributes, signedStrength in *. simpl.
    destruct (hasRecentLocation (users w) u); simpl.
    + destruct (Hu eq_refl) as [[a Ha] [s Hs]]. rewrite Ha, Hs.
      destruct s as [s|]; rewrite (IH _ _ Hl); simpl.
      * f_equal. f_equal; destruct a; lia.
      * reflexivity.
    + now apply IH.
Qed.
End Tally.

(** C1.  When the defence and the team of the factory are read and every
    located user of the range memory answers, [getConquer] calls back the
    signed sum of the strengths of the located users of the range memory
    (allies negative, others positive) minus the defence, and the number
    of users that added a strength; and whatever value [getConquer]
    calls back is that sum and that number. *)
Theorem getConquer_value w f :
  (forall m,
      getFactoryModel w = Some m ->
      f_getDefence (faults w) = None ->
      f_getTeam (faults w) = None ->
      (forall u, In u (_userRangeMem f) ->
         hasRecentLocation (users w) u = true ->
         (exists a, isTeam (users w) u (team m) = inr a)
         /\ (exists s, getStrength (users w) u = inr s)) ->
      getConquer w f
      = CalledBack
          (inr (conquerValue (users w) (team m) (defence m)
                  (_userRangeMem f),
                userCount (users w) (_userRangeMem f))))
  /\ (forall c n,
        getConquer w f = CalledBack (inr (c, n)) ->
        exists m,
          getFactoryModel w = Some m
          /\ c = conquerValue (users w) (team m) (defence m)
                   (_userRangeMem f)
          /\ n = userCount (users w) (_userRangeMem f)).
Proof.
  split.
  - intros m Hm Hd Ht Hok. unfold getConquer, bind, read.
    rewrite Hm, Hd, Ht, (tally_total w (team m) _ _ _ Hok).
    unfold conquerValue, userCount. do 3 f_equal. lia.
  - intros c n. unfold getConquer, bind, read.
    destruct (getFactoryModel w) as [m|]; [|discriminate].
    destruct (f_getDefence (faults w)); [discriminate|].
    destruct (f_getTeam (faults w)); [discriminate|].
    intros [= H]. apply tally_sound in H as [-> ->].
    exists m. unfold conquerValue, userCount. repeat split; lia.
Qed.

Lemma getConquer_value_witness :
  getConquer (Scenario.world 3) Scenario.liveFactory
  = CalledBack (inr (17, 3)).
Proof.
  refine (eq_trans
            (proj1 (getConquer_value (Scenario.world 3) Scenario.liveFactory)
               (Scenario.model 3) eq_refl eq_refl eq_refl _) _).
  - intros u _ _. split; eexists; reflexivity.
  - vm_compute. reflexivity.
Defined.

(** *** Tick *)

(** C3.  When the productions and the in-stock are read: a tick of a
    factory whose in-stock is at least the input production lowers the
    in-stock by the input production and raises the out-stock by the
    output production (wherever the two writes are accepted); a tick of
    a factory whose in-stock is smaller calls back successfully and
    leaves the stored factory, both stocks included, as it was. *)
Theorem tick_production w f m productionIn productionOut :
  getFactoryModel w = Some m ->
  getProductionIn w = CalledBack (inr productionIn) ->
  getProductionOut w = CalledBack (inr productionOut) ->
  f_getIn (faults w) = None ->
  (productionIn <= valueIn m ->
   f_subtractIn (faults w) = None -> f_addOut (faults w) = None ->
   exists m',
     tick w f = (CalledBack (broadcastData w), Some m')
     /\ valueIn m' = valueIn m - productionIn
     /\ valueOut m' = valueOut m + productionOut)
  /\ (valueIn m < productionIn ->
      tick w f = (CalledBack (inr tt), Some m)).
Proof.
  intros Hm Hin Hout Hget. unfold tick.
  rewrite Hm, Hin, Hout, Hget. simpl. split.
  - intros Hle Hsub Hadd.
    assert (E : (valueIn m <? productionIn) = false) by (apply Z.ltb_ge; lia).
    rewrite E, Hsub, Hadd. simpl.
    eexists. split; [reflexivity|]. simpl. split; reflexivity.
  - intros Hlt. apply Z.ltb_lt in Hlt. now rewrite Hlt.
Qed.

Lemma tick_production_witness :
  (exists m',
      tick (Scenario.world 3) Scenario.liveFactory
      = (CalledBack (inr tt), Some m')
      /\ valueIn m' = 10 - 6 /\ valueOut m' = 0 + 3)
  /\ tick (Scenario.world 6) Scenario.liveFactory
     = (CalledBack (inr tt), Some (Scenario.model 6)).
Proof.
  split.
  - apply (proj1 (tick_production (Scenario.world 3) Scenario.liveFactory
                    (Scenario.model 3) 6 3
                    eq_refl eq_refl eq_refl eq_refl)).
    + vm_compute. discriminate.
    + reflexivity.
    + reflexivity.
  - apply (proj2 (tick_production (Scenario.world 6) Scenario.liveFactory
                    (Scenario.model 6) 12 6
                    eq_refl eq_refl eq_refl eq_refl)).
    vm_compute. reflexivity.
Defined.

(** *** Attack *)

Lemma unchanged_refl m : unchanged m (Some m).
Proof. exists m. repeat split. Qed.

(** An attack that must not succeed. *)
Lemma attack_refused w f user T m c n :
  getFactoryModel w = Some m ->
  f_getTeam (faults w) = None ->
  getTeam (users w) user = inr (Some T) ->
  getConquer w f = CalledBack (inr (c, n)) ->
  c <= 0 \/ sameTeam (team m) (Some T) = true ->
  exists e, attack w f user = (CalledBack (inl e), Some m).
Proof.
  intros Hm Ht Hu Hc Hcase. unfold attack, failing, read.
  rewrite Hm, Ht, Hu, Hc.
  destruct (c <=? 0) eqn:E; [eauto|].
  destruct Hcase as [Hle | ->]; [|eauto].
  apply Z.leb_gt in E. lia.
Qed.

(** An attack on an enemy factory above level one: whatever the loop
    over the users does afterwards, the factory is stored as captured. *)
Lemma attack_captures w f user T m c n gameConfig :
  getFactoryModel w = Some m ->
  faults w = noFaults ->
  getConfig w = inr gameConfig ->
  getTeam (users w) user = inr (Some T) ->
  getConquer w f = CalledBack (inr (c, n)) ->
  0 < c -> sameTeam (team m) (Some T) = false -> 1 < level m ->
  snd (attack w f user)
  = Some {| team := Some T;
            level := level m - 1;
            defence := attackNewDefence (factory gameConfig) (defence m);
            valueIn := attackNewIn (factory gameConfig) (valueIn m);
            valueOut := attackNewOut (factory gameConfig) (valueOut m);
            location := location m |}.
Proof.
  intros Hm Hf Hcfg Hu Hc Hpos Hdiff Hlvl. unfold attack, failing.
  rewrite Hm, Hf, Hu, Hc, Hcfg. simpl.
  assert (E1 : (c <=? 0) = false) by (apply Z.leb_gt; lia).
  assert (E2 : (level m <=? 1) = false) by (apply Z.leb_gt; lia).
  rewrite E1, Hdiff, E2.
  destruct (userNames w user); [reflexivity|].
  destruct (teamNames w T); [reflexivity|].
  destruct (snd (notices w f user T (team m))); reflexivity.
Qed.

(** An attack on an enemy factory of level one or less. *)
Lemma attack_destroys w f user T m c n :
  getFactoryModel w = Some m ->
  faults w = noFaults ->
  (exists name, userNames w user = inr name) ->
  (exists name, teamNames w T = inr name) ->
  getTeam (users w) user = inr (Some T) ->
  getConquer w f = CalledBack (inr (c, n)) ->
  0 < c -> sameTeam (team m) (Some T) = false -> level m <= 1 ->
  snd (attack w f user) = None.
Proof.
  intros Hm Hf [un Hun] [tn Htn] Hu Hc Hpos Hdiff Hlvl.
  unfold attack, failing.
  rewrite Hm, Hf, Hu, Hc, Hun, Htn. simpl.
  assert (E1 : (c <=? 0) = false) by (apply Z.leb_gt; lia).
  assert (E2 : (level m <=? 1) = true) by (apply Z.leb_le; lia).
  now rewrite E1, Hdiff, E2.
Qed.

(** In the small game, user 11 of team 2 attacks the factory of team 1
    at level one while the conquer value is 17: the factory is deleted
    and no team owns it. *)
Lemma attack_level_one :
  getConquer (Scenario.world 1) Scenario.liveFactory
  = CalledBack (inr (17, 3))
  /\ attack (Scenario.world 1) Scenario.liveFactory 11%nat
     = (NoCallback, None).
Proof. split; vm_compute; reflexivity. Qed.

(** C2, as stated, does not hold: a factory of level one that is attacked
    with a conquer value above zero by a user of another team is
    destroyed, and does not go over to the attacker's team. *)
Lemma attack_rule_as_specified_fails : ~ attack_rule_as_specified.
Proof.
  intros H.
  destruct attack_level_one as [Hc Ha].
  specialize (H (Scenario.world 1) Scenario.liveFactory 11%nat 2%nat
                (Scenario.model 1) 17 3 eq_refl).
  destruct H as [[_ H] _].
  - repeat split; eexists; reflexivity.
  - reflexivity.
  - exact Hc.
  - destruct H as [_ (m' & E & _)].
    + split; [lia | reflexivity].
    + rewrite Ha in E. discriminate.
Qed.

(** C2, amended.  In an environment in which no access fails, for an
    attacker of team [T] and a conquer value [c]: the factory goes over
    to [T] exactly when [c] is above zero, [T] is not the team of the
    factory and the level of the factory is above one; when [c] is not
    above zero or [T] is the team of the factory, the attack calls back
    an error and leaves team, level, stocks and defence as they were; a
    factory of level one or less that is attacked with [c] above zero by
    another team is deleted. *)
Theorem attack_rule w f user T m c n :
  getFactoryModel w = Some m ->
  reliable w user T ->
  getTeam (users w) user = inr (Some T) ->
  getConquer w f = CalledBack (inr (c, n)) ->
  let differs := sameTeam (team m) (Some T) = false in
  ((differs /\ ownedBy T (snd (attack w f user)))
   <-> (0 < c /\ differs /\ 1 < level m))
  /\ (~ (0 < c /\ differs) ->
      (exists e, fst (attack w f user) = CalledBack (inl e))
      /\ unchanged m (snd (attack w f user)))
  /\ (0 < c -> differs -> level m <= 1 -> snd (attack w f user) = None).
Proof.
  intros Hm (Hf & [gameConfig Hcfg] & Hun & Htn) Hu Hc differs.
  assert (Ht : f_getTeam (faults w) = None) by now rewrite Hf.
  assert (Hrefused :
            ~ (0 < c /\ differs) ->
            exists e, attack w f user = (CalledBack (inl e), Some m)).
  { intros Hn. apply (attack_refused w f user T m c n); auto.
    destruct (Z_lt_le_dec 0 c) as [Hpos|Hle]; [right|now left].
    unfold differs in Hn.
    destruct (sameTeam (team m) (Some T)); [reflexivity|].
    exfalso. now apply Hn. }
  assert (Hkept :
            ~ (0 < c /\ differs) -> ~ ownedBy T (snd (attack w f user))
                                    \/ ~ differs).
  { intros Hn. destruct (Hrefused Hn) as [e He]. rewrite He. simpl.
    unfold differs.
    destruct (sameTeam (team m) (Some T)) eqn:Hs; [right; discriminate|].
    left. intros (m' & [= <-] & Hteam).
    rewrite Hteam in Hs. simpl in Hs. rewrite Nat.eqb_refl in Hs.
    discriminate. }
  split; [split|split].
  - intros [Hd Hown].
    destruct (Z_lt_le_dec 0 c) as [Hpos|Hle].
    + repeat split; auto.
      destruct (Z_lt_le_dec 1 (level m)) as [Hl|Hl]; [assumption|].
      destruct Hown as (m' & E & _).
      rewrite (attack_destroys w f user T m c n) in E; auto.
      discriminate.
    + destruct (Hkept ltac:(lia)); contradiction.
  - intros (Hpos & Hd & Hl). split; [assumption|].
    rewrite (attack_captures w f user T m c n gameConfig); auto.
    eexists. split; reflexivity.
  - intros Hn. destruct (Hrefused Hn) as [e He]. rewrite He. simpl.
    split; [eauto | apply unchanged_refl].
  - intros Hpos Hd Hl.
    now rewrite (attack_destroys w f user T m c n).
Qed.

Lemma attack_rule_witness :
  snd (attack (Scenario.world 3) Scenario.liveFactory 11%nat)
  = Some {| team := Some 2%nat; level := 2; defence := 0; valueIn := 5;
            valueOut := 0; location := (0%Q, 0%Q) |}
  /\ ownedBy 2%nat
       (snd (attack (Scenario.world 3) Scenario.liveFactory 11%nat)).
Proof.
  split.
  - vm_compute. reflexivity.
  - apply (proj1 (attack_rule (Scenario.world 3) Scenario.liveFactory
                    11%nat 2%nat (Scenario.model 3) 17 3
                    eq_refl
                    (conj eq_refl
                       (conj (ex_intro _ _ eq_refl)
                          (conj (ex_intro _ _ eq_refl)
                             (ex_intro _ _ eq_refl))))
                    eq_refl eq_refl)).
    repeat split; lia.
Defined.

End FactoryFacts.

(** ** The live shop *)

Module ShopFacts.
Import JS Game Shop Spec.

(** *** In range of a shop *)

Lemma isUserInRange_null w s :
  isUserInRange w s None = CalledBack (inr false).
Proof. reflexivity. Qed.

Lemma isUserInRange_owner w s u :
  getId (users w) (getUser s) = getId (users w) u ->
  isUserInRange w s (Some u) = CalledBack (inr true).
Proof.
  intros H. unfold isUserInRange. rewrite H, Nat.eqb_refl. reflexivity.
Qed.

Lemma isUserInRange_no_location w s u :
  getId (users w) (getUser s) <> getId (users w) u ->
  hasRecentLocation (users w) u = false ->
  isUserInRange w s (Some u) = CalledBack (inr false).
Proof.
  intros Hid Hloc. unfold isUserInRange.
  apply Nat.eqb_neq in Hid. rewrite Hid, Hloc. reflexivity.
Qed.

(** The branch that compares the distance with the range refers to a
    [self] that nothing binds: it never calls back. *)
Lemma isUserInRange_distance w s u gameConfig :
  getId (users w) (getUser s) <> getId (users w) u ->
  hasRecentLocation (users w) u = true ->
  getConfig w = inr gameConfig ->
  isUserInRange w s (Some u) = Thrown ReferenceError_self.
Proof.
  intros Hid Hloc Hcfg. unfold isUserInRange, getRange.
  apply Nat.eqb_neq in Hid. rewrite Hid, Hloc, Hcfg. simpl.
  destruct (isInRangeMemory s u); reflexivity.
Qed.

(** C7 fails on the code.  User 2 stands at distance 1 of the shop of
    user 1, whose range is 10, and has a recent location: the claim asks
    for [true] to be called back, whereas [isUserInRange] throws a
    [ReferenceError] and calls nothing back. *)
Theorem isUserInRange_throws :
  hasRecentLocation Scenario.users 2%nat = true
  /\ Qle_bool
       (getDistanceTo Scenario.shopWorld
          (getLocation Scenario.shopWorld Scenario.liveShop)
          (Game.getLocation Scenario.users 2%nat))
       (range (shop Scenario.config)) = true
  /\ getRange Scenario.shopWorld Scenario.liveShop (Some 2%nat)
     = CalledBack (inr (range (shop Scenario.config)))
  /\ isUserInRange Scenario.shopWorld Scenario.liveShop (Some 2%nat)
     = Thrown ReferenceError_self.
Proof. repeat split; vm_compute; reflexivity. Qed.

(** *** The scheduled handover *)

Lemma nextTimer_single (x : Timer) : nextTimer [x] = Some (x, []).
Proof. reflexivity. Qed.

(** [load] sets the timer of the preparation step. *)
Lemma load_schedules e s l gameConfig :
  load_getConfig e = inr gameConfig ->
  let lifeTime := getShopLifetime (shop gameConfig) in
  let alertTime := Z.min (shopAlertTime (shop gameConfig)) lifeTime in
  timers (snd (load e s l))
  = timers l
      ++ [{| due := now l + (lifeTime - alertTime);
             task :=
               functionPrepareTransfer (snd (fst (load e s l))) alertTime
                 (workerInterval (shop gameConfig)) |}]
  /\ now (snd (load e s l)) = now l
  /\ shops (snd (load e s l)) = shops l
  /\ sent (snd (load e s l)) = sent l
  /\ ref (snd (fst (load e s l))) = ref s
  /\ getUser (snd (fst (load e s l))) = getUser s.
Proof.
  intros H. unfold load. rewrite H. simpl.
  destruct (generateToken e); repeat split.
Qed.

(** A preparation step that has to wait sets its own timer again. *)
Lemma prepare_retries h self alertTime workerInterval l :
  noReplacement h ->
  run_functionPrepareTransfer h self alertTime workerInterval l
  = setTimeout (functionPrepareTransfer self alertTime workerInterval)
      workerInterval l.
Proof.
  intros (Ht & Hf & d & Hd & Hpos). unfold run_functionPrepareTransfer.
  destruct (getTeamModel h); [|contradiction].
  rewrite Hf, Hd.
  assert (E : (0 <=? d) = true) by now apply Z.leb_le.
  now rewrite E.
Qed.

(** A preparation step that finds the handover due sets the timer of the
    transfer and tells the owner. *)
Lemma prepare_schedules_transfer h self alertTime workerInterval l :
  handoverDue h ->
  let l' := run_functionPrepareTransfer h self alertTime workerInterval l in
  timers l'
  = timers l ++ [{| due := now l + alertTime;
                    task := functionTransfer self |}]
  /\ now l' = now l /\ shops l' = shops l
  /\ exists n, sent l' = sent l ++ [n] /\ recipient n = getUser self.
Proof.
  intros (Ht & newUser & d & Hf & Hd & Hdue).
  unfold run_functionPrepareTransfer.
  destruct (getTeamModel h); [|contradiction].
  rewrite Hf, Hd. destruct newUser as [u|].
  - simpl. repeat split. eexists. split; reflexivity.
  - assert (E : (0 <=? d) = false)
      by (apply Z.leb_gt; destruct Hdue; [congruence|lia]).
    rewrite E. simpl. repeat split. eexists. split; reflexivity.
Qed.

(** Removing a shop that is listed once leaves it unlisted. *)
Lemma transfer_unlists self (l : list t) :
  listedOnce self l ->
  unlisted self (splice l (indexOf same l self) 1).
Proof.
  intros [Hin Hnd]. unfold unlisted.
  assert (Hex : existsb (fun y => same y self) l = true).
  { apply in_map_iff in Hin as (y & Hy & Hiny).
    apply existsb_exists. exists y. split; auto.
    unfold same. now apply Nat.eqb_eq. }
  destruct (ArrayFacts.splice_indexOf same l self Hex)
    as (l1 & y & l2 & -> & Hy & _ & ->).
  unfold same in Hy. apply Nat.eqb_eq in Hy.
  rewrite map_app in *. simpl in Hnd. rewrite Hy in Hnd.
  now apply NoDup_remove_2 in Hnd.
Qed.

(** *** The event loop *)

Lemma turns_idle world n l : turn world l = None -> turns world n l = l.
Proof. intros H. destruct n; simpl; [|rewrite H]; reflexivity. Qed.

Lemma turns_add world n m l :
  turns world (n + m) l = turns world m (turns world n l).
Proof.
  revert l. induction n as [|n IH]; intros l; simpl.
  - reflexivity.
  - destruct (turn world l) as [l'|] eqn:E; [apply IH|].
    now rewrite turns_idle.
Qed.

Lemma turn_retries world self alertTime workerInterval time l :
  preparing self alertTime workerInterval time l ->
  noReplacement (world time) ->
  exists l',
    turn world l = Some l'
    /\ preparing self alertTime workerInterval (time + workerInterval) l'
    /\ shops l' = shops l /\ sent l' = sent l.
Proof.
  intros Hl Hw. unfold turn. rewrite Hl, nextTimer_single. simpl.
  rewrite (prepare_retries _ _ _ _ _ Hw).
  eexists. split; [reflexivity|]. repeat split.
Qed.

(** As long as no replacement is found, the preparation step comes back
    every [workerInterval]. *)
Lemma retries world self alertTime workerInterval (i : nat) :
  forall time l,
    preparing self alertTime workerInterval time l ->
    (forall j, (j < i)%nat ->
       noReplacement (world (time + Z.of_nat j * workerInterval))) ->
    preparing self alertTime workerInterval
      (time + Z.of_nat i * workerInterval) (turns world i l)
    /\ shops (turns world i l) = shops l
    /\ sent (turns world i l) = sent l.
Proof.
  induction i as [|i IH]; intros time l Hl Hw.
  - simpl. rewrite Z.add_0_r. auto.
  - destruct (turn_retries world self alertTime workerInterval time l Hl)
      as (l' & E & Hl' & Hs & Hm).
    { specialize (Hw O ltac:(lia)). simpl in Hw.
      now rewrite Z.add_0_r in Hw. }
    simpl turns. rewrite E.
    destruct (IH (time + workerInterval) l' Hl') as (Hp & Hs' & Hm').
    { intros j Hj. specialize (Hw (S j) ltac:(lia)).
      replace (time + workerInterval + Z.of_nat j * workerInterval)
        with (time + Z.of_nat (S j) * workerInterval) by lia.
      exact Hw. }
    repeat split; try congruence.
    replace (time + Z.of_nat (S i) * workerInterval)
      with (time + workerInterval + Z.of_nat i * workerInterval) by lia.
    exact Hp.
Qed.

(** The turn in which the handover is found due, and the turn of the
    transfer. *)
Lemma turn_prepares world self alertTime workerInterval time l :
  preparing self alertTime workerInterval time l ->
  handoverDue (world time) ->
  exists l',
    turn world l = Some l'
    /\ timers l' = [{| due := time + alertTime;
                       task := functionTransfer self |}]
    /\ shops l' = shops l.
Proof.
  intros Hl Hw. unfold turn. rewrite Hl, nextTimer_single. simpl.
  eexists. split; [reflexivity|].
  match goal with
  | |- context [run_functionPrepareTransfer ?h ?s ?a ?i ?l0] =>
      destruct (prepare_schedules_transfer h s a i l0 Hw)
        as (Ht & _ & Hs & _)
  end.
  split; assumption.
Qed.

Lemma turn_transfers world self time l :
  timers l = [{| due := time; task := functionTransfer self |}] ->
  exists l',
    turn world l = Some l'
    /\ now l' = time /\ timers l' = []
    /\ shops l' = splice (shops l) (indexOf same (shops l) self) 1
    /\ sent l'
       = sent l ++ [{| recipient := getUser self;
                       message := "You're no longer a dealer" |}].
Proof.
  intros Hl. unfold turn. rewrite Hl, nextTimer_single. simpl.
  eexists. split; [reflexivity|]. repeat split.
Qed.

(** C6.  [load] sets one timer, for the preparation step, due
    [lifeTime - min (shopAlertTime, lifeTime)] after loading.  While the
    preparation step finds no replacement user and a preferred shop
    count delta that is not negative, it is due again [workerInterval]
    later.  Once it finds a replacement user or a negative delta, the
    transfer is due [min (shopAlertTime, lifeTime)] later; when the
    transfer runs, the shop leaves the list of the shop manager and its
    owner is told to be a dealer no longer. *)
Theorem handover_schedule e s l gameConfig world (k : nat) :
  load_getConfig e = inr gameConfig ->
  timers l = [] ->
  listedOnce s (shops l) ->
  let lifeTime := getShopLifetime (shop gameConfig) in
  let alertTime := Z.min (shopAlertTime (shop gameConfig)) lifeTime in
  let interval := workerInterval (shop gameConfig) in
  let self := snd (fst (load e s l)) in
  let loaded := snd (load e s l) in
  let first := now l + (lifeTime - alertTime) in
  (forall j, (j < k)%nat ->
     noReplacement (world (first + Z.of_nat j * interval))) ->
  handoverDue (world (first + Z.of_nat k * interval)) ->
  timers loaded
  = [{| due := first;
        task := functionPrepareTransfer self alertTime interval |}]
  /\ (forall i, (i <= k)%nat ->
        timers (turns world i loaded)
        = [{| due := first + Z.of_nat i * interval;
              task := functionPrepareTransfer self alertTime interval |}])
  /\ timers (turns world (k + 1) loaded)
     = [{| due := first + Z.of_nat k * interval + alertTime;
           task := functionTransfer self |}]
  /\ now (turns world (k + 2) loaded)
     = first + Z.of_nat k * interval + alertTime
  /\ unlisted s (shops (turns world (k + 2) loaded))
  /\ In {| recipient := getUser s; message := "You're no longer a dealer" |}
       (sent (turns world (k + 2) loaded)).
Proof.
  intros Hcfg Hempty Hlisted lifeTime alertTime interval self loaded first
    Hwait Hdue.
  destruct (load_schedules e s l gameConfig Hcfg)
    as (Htimers & _ & Hshops & _ & Href & Huser).
  fold lifeTime alertTime interval self loaded first in Htimers.
  fold loaded in Hshops. fold self in Href, Huser.
  rewrite Hempty in Htimers. simpl in Htimers.
  assert (Hretry : forall i, (i <= k)%nat ->
            preparing self alertTime interval
              (first + Z.of_nat i * interval) (turns world i loaded)
            /\ shops (turns world i loaded) = shops l).
  { intros i Hi.
    destruct (retries world self alertTime interval i first loaded Htimers)
      as (Hp & Hs & _).
    - intros j Hj. apply Hwait. lia.
    - split; congruence. }
  destruct (Hretry k (le_n k)) as [Hk Hks].
  destruct (turn_prepares world self alertTime interval _ _ Hk Hdue)
    as (l1 & E1 & Ht1 & Hs1).
  destruct (turn_transfers world self _ l1 Ht1)
    as (l2 & E2 & Hn2 & _ & Hs2 & Hm2).
  assert (H1 : turns world (k + 1) loaded = l1)
    by (rewrite turns_add; simpl; now rewrite E1).
  assert (H2 : turns world (k + 2) loaded = l2)
    by (rewrite turns_add; simpl; now rewrite E1, E2).
  rewrite H1, H2. repeat split.
  - exact Htimers.
  - intros i Hi. apply (Hretry i Hi).
  - exact Ht1.
  - exact Hn2.
  - rewrite Hs2, Hs1, Hks.
    assert (Hsame : forall ls,
               indexOf same ls self = indexOf same ls s).
    { intros ls. unfold indexOf. generalize 0.
      induction ls as [|y ls IH]; intros z; simpl; [reflexivity|].
      unfold same at 1 3. rewrite Href.
      destruct (Nat.eqb (ref y) (ref s)); [reflexivity|apply IH]. }
    rewrite Hsame. now apply transfer_unlists.
  - rewrite Hm2, Huser. apply in_or_app. right. now left.
Qed.

Lemma handover_schedule_witness :
  now (turns Scenario.handover 4
         (snd (load Scenario.loadEnv Scenario.liveShop Scenario.loop)))
  = 5700
  /\ unlisted Scenario.liveShop
       (shops (turns Scenario.handover 4
                 (snd (load Scenario.loadEnv Scenario.liveShop
                         Scenario.loop)))).
Proof.
  pose proof (handover_schedule Scenario.loadEnv Scenario.liveShop
                Scenario.loop Scenario.config Scenario.handover 2
                eq_refl eq_refl) as H.
  simpl in H.
  assert (Hlisted : listedOnce Scenario.liveShop (shops Scenario.loop)).
  { split; simpl; [auto|].
    repeat constructor; simpl; intuition discriminate. }
  assert (Hwait : forall j, (j < 2)%nat ->
            noReplacement
              (Scenario.handover (100 + (5000 - 1000) + Z.of_nat j * 300))).
  { intros j Hj. unfold noReplacement, Scenario.handover.
    cbn [getTeamModel findNewShopUser getTeamPreferredShopCountDelta].
    assert (E : (100 + (5000 - 1000) + Z.of_nat j * 300 <? 4700) = true)
      by (apply Z.ltb_lt; lia).
    rewrite E. repeat split; [discriminate|].
    exists 0. split; [reflexivity|lia]. }
  assert (Hdue : handoverDue
                   (Scenario.handover (100 + (5000 - 1000) + 2 * 300))).
  { split; [discriminate|]. exists (Some 3%nat), 0.
    repeat split. left. discriminate. }
  destruct (H Hlisted Hwait Hdue) as (_ & _ & _ & Hnow & Hun & _).
  split; [exact Hnow | exact Hun].
Defined.

End ShopFacts.

(** ** The range of factories and shops *)

Module RangeFacts.
Import JS Game.

(** C8.  When the game configuration (and, for a factory, its level) is
    read, [getRange] of a factory and of a shop calls back the active
    range of the game configuration for a live user that is in the range
    memory of the object, and the global range for any other live user
    and for no user at all. *)
Theorem getRange_active_or_global :
  (forall w f m gameConfig,
      Factory.getFactoryModel w = Some m ->
      Factory.getConfig w = inr gameConfig ->
      Factory.f_getLevel (Factory.faults w) = None ->
      (forall u, Factory.isInRangeMemory f u = true ->
         Factory.getRange w f (Some u)
         = CalledBack
             (inr (getActiveRange (factory gameConfig) (Factory.level m))))
      /\ (forall u, Factory.isInRangeMemory f u = false ->
            Factory.getRange w f (Some u)
            = CalledBack
                (inr (getRange (factory gameConfig) (Factory.level m))))
      /\ Factory.getRange w f None
         = CalledBack
             (inr (getRange (factory gameConfig) (Factory.level m))))
  /\ (forall w s gameConfig,
        Shop.getConfig w = inr gameConfig ->
        (forall u, Shop.isInRangeMemory s u = true ->
           Shop.getRange w s (Some u)
           = CalledBack (inr (activeRange (shop gameConfig))))
        /\ (forall u, Shop.isInRangeMemory s u = false ->
              Shop.getRange w s (Some u)
              = CalledBack (inr (range (shop gameConfig))))
        /\ Shop.getRange w s None
           = CalledBack (inr (range (shop gameConfig)))).
Proof.
  split.
  - intros w f m gameConfig Hm Hcfg Hlvl.
    unfold Factory.getRange, Factory.bind, read.
    rewrite Hm, Hcfg, Hlvl.
    repeat split; try intros u ->; reflexivity.
  - intros w s gameConfig Hcfg. unfold Shop.getRange. rewrite Hcfg.
    repeat split; try intros u ->; reflexivity.
Qed.

Lemma getRange_active_or_global_witness :
  Factory.getRange (Scenario.world 3) Scenario.liveFactory (Some 2%nat)
  = CalledBack (inr (inject_Z 23))
  /\ Shop.getRange Scenario.shopWorld Scenario.liveShop (Some 2%nat)
     = CalledBack (inr 10%Q).
Proof.
  split.
  - apply (proj1 (proj1 getRange_active_or_global (Scenario.world 3)
                    Scenario.liveFactory (Scenario.model 3) Scenario.config
                    eq_refl eq_refl eq_refl)).
    vm_compute. reflexivity.
  - apply (proj1 (proj2 (proj2 getRange_active_or_global Scenario.shopWorld
                           Scenario.liveShop Scenario.config eq_refl))).
    vm_compute. reflexivity.
Defined.

End RangeFacts.

(** ** The shop buy-out handler *)

Module HandlerFacts.
Import JS Game ShopBuyOutHandler Spec.

(** [isUserInRange] of a shop calls back or throws. *)
Lemma isUserInRange_ends w s u : Shop.isUserInRange w s u <> NoCallback.
Proof.
  unfold Shop.isUserInRange, Shop.getRange. destruct u as [u|]; [|discriminate].
  destruct (Nat.eqb _ _); [discriminate|].
  destruct (negb _); [discriminate|].
  destruct (Shop.getConfig w); [discriminate|].
  destruct (Shop.isInRangeMemory s u);
    destruct (Shop.bound _ _); discriminate.
Qed.

(** What the callbacks below the shop leave behind: the balances as they
    were, and one error message unless an exception escaped. *)
Lemma transaction_cases liveGame liveShop packet user st :
  let r := transaction liveGame liveShop packet user st in
  store r = st
  /\ ((thrown r = None /\ sent r = sent (callbackError st))
      \/ (thrown r <> None /\ sent r = [])).
Proof.
  unfold transaction.
  destruct (getGameUser liveGame user); [split; auto|].
  destruct (getUser liveGame user) as [?|[liveUser|]];
    try (split; auto; fail).
  pose proof (isUserInRange_ends (shopWorld liveGame) liveShop
                (Some liveUser)) as Hends.
  destruct (Shop.isUserInRange (shopWorld liveGame) liveShop (Some liveUser))
    as [[?|[|]]| |]; simpl; try (split; auto; fail).
  - split; [reflexivity|]. right. split; [discriminate|reflexivity].
  - split; [reflexivity|]. right. split; [discriminate|reflexivity].
Qed.

(** The owner of the shop is the one user whom its in-range check
    accepts; the sale of the owner ends at the price of the shop, asked
    through a method that [Shop] does not have. *)
Lemma handler_owner_throws :
  let r := handler [Scenario.liveGame] (Scenario.packet 5)
             (Scenario.socket 1%nat) Scenario.store in
  Shop.isUserInRange Scenario.shopWorld Scenario.loadedShop (Some 1%nat)
  = CalledBack (inr true)
  /\ thrown r = Some TypeError_not_a_function
  /\ sent r = []
  /\ store r 0%nat 1%nat = Scenario.store 0%nat 1%nat.
Proof. repeat split; vm_compute; reflexivity. Qed.

(** C4 fails on the code.  User 2, authenticated, not the owner of the
    shop, stands at distance 1 of the shop, whose range is 10, owns 10
    out goods and 100 money and asks to sell 5 out goods to the shop,
    which buys them at 3/2: the claim asks for an out balance of 5 and a
    money balance of 108.  The in-range check of the shop throws, no
    packet is sent and both balances are what they were. *)
Theorem handler_sale_lost :
  let packet := Scenario.packet 5 in
  let socket := Scenario.socket 2%nat in
  let r := handler [Scenario.liveGame] packet socket Scenario.store in
  let before := Scenario.store 0%nat 2%nat in
  authenticatedUser socket = Some 2%nat
  /\ findShop [Scenario.liveGame] (get (p_shop packet))
     = Some (Scenario.liveGame, Scenario.loadedShop)
  /\ hasRecentLocation Scenario.users 2%nat = true
  /\ Qle_bool
       (Shop.getDistanceTo Scenario.shopWorld
          (Shop.getLocation Scenario.shopWorld Scenario.loadedShop)
          (Game.getLocation Scenario.users 2%nat))
       (range (shop Scenario.config)) = true
  /\ Shop._outBuyPrice Scenario.loadedShop = Some (3 # 2)%Q
  /\ before = {| out := Int 10; money := Int 100 |}
  /\ outAmountOf packet (out before) = Int 5
  /\ thrown r = Some Shop.ReferenceError_self
  /\ sent r = []
  /\ store r 0%nat 2%nat = {| out := Int 10; money := Int 100 |}.
Proof. repeat split; vm_compute; reflexivity. Qed.

(** *** Refusals *)

(** Whatever the packet and the session, the balances stay as they
    were, and an error message is sent unless an exception escapes. *)
Lemma handler_refuses games packet socket st :
  let r := handler games packet socket st in
  store r = st /\ (thrown r = None -> answeredError r).
Proof.
  unfold handler.
  assert (Hanswered : forall text,
             answeredError (respond st (errorDialog text))).
  { intros text. eexists. split; [left; reflexivity|reflexivity]. }
  destruct (negb _ || _); [split; [reflexivity|intros _; apply Hanswered]|].
  destruct (authenticatedUser socket) as [user|];
    [|split; [reflexivity|intros _; apply Hanswered]].
  destruct (findShop games (get (p_shop packet))) as [[liveGame liveShop]|];
    [|split; [reflexivity|intros _; apply Hanswered]].
  destruct (transaction_cases liveGame liveShop packet user st)
    as [Hst [[_ Hs]|[Ht _]]]; (split; [exact Hst|]).
  - intros _. unfold answeredError. rewrite Hs. apply Hanswered.
  - intros Hn. now elim Ht.
Qed.

(** C9 fails on the code.  User 2, authenticated, not the owner of the
    shop and with a recent location, asks to sell 0 out goods: the
    request is one to refuse, yet no packet is sent to the socket,
    because the in-range check of the shop throws before the amount is
    looked at.  The balances stay as they were. *)
Theorem handler_refusal_lost :
  let packet := Scenario.packet 0 in
  let socket := Scenario.socket 2%nat in
  let r := handler [Scenario.liveGame] packet socket Scenario.store in
  malformed packet = false
  /\ authenticatedUser socket = Some 2%nat
  /\ refusedAmount (outAmountOf packet (out (Scenario.store 0%nat 2%nat)))
       (out (Scenario.store 0%nat 2%nat)) = true
  /\ sent r = []
  /\ thrown r = Some Shop.ReferenceError_self
  /\ ~ answeredError r
  /\ store r 0%nat 2%nat = Scenario.store 0%nat 2%nat.
Proof.
  repeat split; try (vm_compute; reflexivity).
  intros (m & Hin & _). vm_compute in Hin. exact Hin.
Qed.

End HandlerFacts.


(** ** The visibility state and its callers *)

Module VisibilityFacts.
Import JS Game Factory Visibility Spec Terms ArrayFacts.

(** The flags of the result object, one by one: [pinged] is the
    membership in the ping memory; [ally] is set for a player whose team
    is the team of the factory; [inRange] is set when the in-range check
    is made and succeeds; [visible] is set exactly for a spectator, a
    finished game, or one of the three other flags. *)
Theorem getVisibilityState_exact w f u m r :
  getFactoryModel w = Some m ->
  getVisibilityState w f (Some u) = CalledBack (inr r) ->
  exists gameStage userState gameUser userTeam,
    getStage w = inr gameStage
    /\ getUserState w u = inr userState
    /\ getGameUser w u = inr gameUser
    /\ teamOfGameUser gameUser userTeam
    /\ pinged r = isInPingMemory f u
    /\ ally r = player userState && sameTeam (team m) userTeam
    /\ (inRange r = true <->
        rangeChecked (users w) u userState gameStage = true
        /\ isUserInRange w f (Some u) = CalledBack (inr true))
    /\ visible r
       = spectator userState || (2 <=? gameStage) || pinged r || ally r
         || inRange r.
Proof.
  intros Hm. unfold getVisibilityState, bind, andThen, read. rewrite Hm.
  destruct (f_getTeam (faults w)); [discriminate|].
  destruct (getGameUser w u) as [?|gameUser]; [discriminate|].
  destruct (getStage w) as [?|gameStage]; [discriminate|].
  destruct (match gameUser with
            | Some g => gu_getTeam g
            | None => inr None
            end) as [?|userTeam] eqn:Hteam; [discriminate|].
  destruct (getUserState w u) as [?|userState]; [discriminate|].
  intros H. exists gameStage, userState, gameUser, userTeam.
  assert (Hgu : teamOfGameUser gameUser userTeam).
  { destruct gameUser; simpl; [assumption|]. now injection Hteam. }
  do 4 (split; [reflexivity || assumption|]).
  unfold rangeChecked.
  destruct ((player userState || special userState)
            && hasRecentLocation (users w) u && (gameStage <? 2)).
  - destruct (isUserInRange w f (Some u)) as [[?|result]| |];
      try discriminate.
    injection H as <-.
    destruct (spectator userState), (2 <=? gameStage), (isInPingMemory f u),
      (player userState), (sameTeam (team m) userTeam), result;
      simpl; repeat split; auto; try tauto; try (intros [_ E]; discriminate);
      try discriminate.
  - injection H as <-.
    destruct (spectator userState), (2 <=? gameStage), (isInPingMemory f u),
      (player userState), (sameTeam (team m) userTeam);
      simpl; repeat split; auto; try (intros [E _]; discriminate);
      try discriminate.
Qed.

Lemma getVisibilityState_exact_witness :
  exists r,
    getVisibilityState (Scenario.world 3) Scenario.liveFactory (Some 12%nat)
    = CalledBack (inr r)
    /\ ally r = false /\ inRange r = true /\ visible r = true.
Proof.
  eexists. split; [vm_compute; reflexivity|].
  destruct (getVisibilityState_exact (Scenario.world 3) Scenario.liveFactory
              12%nat (Scenario.model 3) _ eq_refl eq_refl)
    as (gameStage & userState & gameUser & userTeam & _).
  repeat split.
Defined.

(** *** Who sees the factory *)

Lemma getVisibilityState_pinged w f u m r :
  getFactoryModel w = Some m ->
  getVisibilityState w f (Some u) = CalledBack (inr r) ->
  pinged r = isInPingMemory f u.
Proof.
  intros Hm. unfold getVisibilityState, bind, andThen. rewrite Hm.
  destruct (read _ _); [discriminate|].
  destruct (getGameUser w u) as [?|gameUser]; [discriminate|].
  destruct (getStage w); [discriminate|].
  destruct (match gameUser with
            | Some g => gu_getTeam g
            | None => inr None
            end); [discriminate|].
  destruct (getUserState w u) as [?|userState]; [discriminate|].
  destruct (_ && _ && _).
  - destruct (isUserInRange w f (Some u)) as [[?|result]| |];
      try discriminate.
    intros [= <-]. simpl.
    destruct (player userState && _), (isInPingMemory f u),
      (spectator userState || _); reflexivity.
  - intros [= <-].
    destruct (player userState && _), (isInPingMemory f u),
      (spectator userState || _); reflexivity.
Qed.

(** Once the game is finished [isVisibleFor] calls back [true] for
    everybody, the null user included, without looking at the factory;
    before that it calls back [false] for the null user, and never
    [false] for a user of the ping memory of a stored factory. *)
Theorem isVisibleFor_cases w f gameStage :
  getStage w = inr gameStage ->
  (2 <= gameStage ->
   forall liveUser, isVisibleFor w f liveUser = CalledBack (inr true))
  /\ (gameStage < 2 -> isVisibleFor w f None = CalledBack (inr false))
  /\ (forall u b,
        getFactoryModel w <> None -> isInPingMemory f u = true ->
        isVisibleFor w f (Some u) = CalledBack (inr b) -> b = true).
Proof.
  intros Hs. unfold isVisibleFor, bind. rewrite Hs. repeat split.
  - intros H liveUser. apply Z.leb_le in H. now rewrite H.
  - intros H. apply Z.leb_gt in H. now rewrite H.
  - intros u b Hm Hp. destruct (2 <=? gameStage); [now intros [= <-]|].
    unfold andThen.
    destruct (getVisibilityState w f (Some u)) as [[?|r]| |] eqn:Hr;
      try discriminate.
    intros [= <-]. destruct (getFactoryModel w) as [m|] eqn:E; [|congruence].
    apply (FactoryFacts.getVisibilityState_coherent w f (Some u) r Hr).
    rewrite (getVisibilityState_pinged w f u m r E Hr), Hp.
    apply orb_true_r.
Qed.

Lemma isVisibleFor_cases_witness :
  isVisibleFor (Scenario.world 3) Scenario.liveFactory None
  = CalledBack (inr false).
Proof.
  apply (proj1 (proj2 (isVisibleFor_cases (Scenario.world 3)
                         Scenario.liveFactory 1 eq_refl))).
  lia.
Defined.

(** *** Keeping the memories up to date *)

Lemma other_member (l : list UserRef) (u v : UserRef) (b : bool) :
  v <> u ->
  (0 <=? indexOf Nat.eqb l u) = negb b ->
  (0 <=? indexOf Nat.eqb
           (if b then push l u else splice l (indexOf Nat.eqb l u) 1) v)
  = (0 <=? indexOf Nat.eqb l v).
Proof.
  unfold UserRef in *.
  intros Hv Hm. apply Bool.eq_iff_eq_true. rewrite !member_In.
  destruct b; simpl in Hm; cbv iota.
  - unfold push. rewrite in_app_iff. simpl. intuition congruence.
  - apply member_In in Hm.
    destruct (remove_split l u Hm) as (l1 & l2 & E1 & E2).
    rewrite E2, E1, !in_app_iff. simpl. intuition congruence.
Qed.

Lemma changed_flag (c a b : bool) :
  (c = true <-> a <> b) -> c = negb (Bool.eqb a b).
Proof.
  destruct c, a, b; simpl; intros [H1 H2]; try reflexivity;
    try (exfalso; now apply H1);
    try (apply H2; discriminate).
Qed.

Lemma setInVisibilityMemory_frame f u b :
  _userRangeMem (snd (setInVisibilityMemory f u b)) = _userRangeMem f
  /\ _userPingMem (snd (setInVisibilityMemory f u b)) = _userPingMem f
  /\ forall v, v <> u ->
       isInVisibilityMemory (snd (setInVisibilityMemory f u b)) v
       = isInVisibilityMemory f v.
Proof.
  unfold setInVisibilityMemory, isInVisibilityMemory.
  destruct (Bool.eqb _ b) eqn:E; simpl; repeat split; auto.
  intros v Hv. apply other_member; auto. now apply eqb_false_negb.
Qed.

Lemma setInRangeMemory_frame f u b :
  _userVisibleMem (snd (setInRangeMemory f u b)) = _userVisibleMem f
  /\ _userPingMem (snd (setInRangeMemory f u b)) = _userPingMem f
  /\ forall v, v <> u ->
       isInRangeMemory (snd (setInRangeMemory f u b)) v
       = isInRangeMemory f v.
Proof.
  unfold setInRangeMemory, isInRangeMemory.
  destruct (Bool.eqb _ b) eqn:E; simpl; repeat split; auto.
  intros v Hv. apply other_member; auto. now apply eqb_false_negb.
Qed.

Lemma setter_unchanged_vis f u b :
  fst (setInVisibilityMemory f u b) = false ->
  snd (setInVisibilityMemory f u b) = f.
Proof.
  unfold setInVisibilityMemory. now destruct (Bool.eqb _ b).
Qed.

Lemma setter_unchanged_range f u b :
  fst (setInRangeMemory f u b) = false ->
  snd (setInRangeMemory f u b) = f.
Proof.
  unfold setInRangeMemory. now destruct (Bool.eqb _ b).
Qed.

(** The state that the two setters of [updateVisibilityState] leave. *)
Lemma update_memories f u (r : VisibilityStateObject) :
  NoDup (_userVisibleMem f) -> NoDup (_userRangeMem f) ->
  let f1 := snd (setInVisibilityMemory f u (visible r)) in
  let f2 := snd (setInRangeMemory f1 u (inRange r)) in
  isInVisibilityMemory f2 u = visible r
  /\ isInRangeMemory f2 u = inRange r
  /\ (forall v, v <> u ->
        isInVisibilityMemory f2 v = isInVisibilityMemory f v
        /\ isInRangeMemory f2 v = isInRangeMemory f v)
  /\ _userPingMem f2 = _userPingMem f
  /\ NoDup (_userVisibleMem f2) /\ NoDup (_userRangeMem f2)
  /\ fst (setInVisibilityMemory f u (visible r))
     = negb (Bool.eqb (isInVisibilityMemory f u) (visible r))
  /\ fst (setInRangeMemory f1 u (inRange r))
     = negb (Bool.eqb (isInRangeMemory f u) (inRange r)).
Proof.
  intros Hv Hr f1 f2.
  destruct (MemoryFacts.setInVisibilityMemory_ok f u (visible r) Hv)
    as (Hc1 & Hm1 & _ & Hn1).
  destruct (setInVisibilityMemory_frame f u (visible r)) as (Fr1 & Fp1 & Fo1).
  fold f1 in Hm1, Hn1, Fr1, Fp1, Fo1.
  assert (Hr1 : NoDup (_userRangeMem f1)) by now rewrite Fr1.
  destruct (MemoryFacts.Factory_setInRangeMemory_ok f1 u (inRange r) Hr1)
    as (Hc2 & Hm2 & _ & Hn2).
  destruct (setInRangeMemory_frame f1 u (inRange r)) as (Fv2 & Fp2 & Fo2).
  fold f2 in Hm2, Hn2, Fv2, Fp2, Fo2.
  assert (Hsame : isInRangeMemory f1 u = isInRangeMemory f u)
    by (unfold isInRangeMemory; now rewrite Fr1).
  repeat split.
  - unfold isInVisibilityMemory. rewrite Fv2. exact Hm1.
  - exact Hm2.
  - unfold isInVisibilityMemory. rewrite Fv2. now apply Fo1.
  - rewrite (Fo2 v H). unfold isInRangeMemory. now rewrite Fr1.
  - congruence.
  - now rewrite Fv2.
  - exact Hn2.
  - now apply changed_flag.
  - rewrite <- Hsame. now apply changed_flag.
Qed.

Lemma maintained_NoDup f :
  maintained f ->
  NoDup (_userVisibleMem f) /\ NoDup (_userRangeMem f)
  /\ NoDup (_userPingMem f).
Proof.
  induction 1 as [|w f liveUser _ (Hv & Hr & Hp)|i f u b s H IH].
  - simpl. repeat split; constructor.
  - unfold updateVisibilityState. destruct liveUser as [u|]; [|now auto].
    destruct (getVisibilityState w f (Some u)) as [[?|r]| |]; auto.
    destruct (update_memories f u r Hv Hr)
      as (_ & _ & _ & Hp' & Hv' & Hr' & _).
    destruct (setInVisibilityMemory f u (visible r)) as [c1 f1].
    simpl in *.
    destruct (setInRangeMemory f1 u (inRange r)) as [c2 f2]. simpl in *.
    destruct (c1 || c2); [destruct (broadcastData w)|]; simpl;
      repeat split; auto; congruence.
  - destruct IH as (Hv & Hr & Hp).
    destruct (MemoryFacts.setInPingMemory_ok i f u b s Hp) as (_ & _ & _ & Hn).
    unfold setInPingMemory in *.
    destruct (Bool.eqb _ b); simpl in *; auto.
Qed.

(** What [updateVisibilityState] does with the visibility state [r]. *)
Lemma update_result w f u r :
  NoDup (_userVisibleMem f) -> NoDup (_userRangeMem f) ->
  getVisibilityState w f (Some u) = CalledBack (inr r) ->
  let f2 :=
    snd (setInRangeMemory (snd (setInVisibilityMemory f u (visible r))) u
           (inRange r)) in
  let changed :=
    negb (Bool.eqb (isInVisibilityMemory f u) (visible r))
    || negb (Bool.eqb (isInRangeMemory f u) (inRange r)) in
  snd (updateVisibilityState w f (Some u)) = f2
  /\ fst (updateVisibilityState w f (Some u))
     = (if changed then
          match broadcastData w with
          | inl err => CalledBack (inl err)
          | inr _ => CalledBack (inr (Some true))
          end
        else CalledBack (inr (Some false)))
  /\ (changed = false -> f2 = f).
Proof.
  intros Hv Hg Hr f2 changed.
  destruct (update_memories f u r Hv Hg)
    as (_ & _ & _ & _ & _ & _ & Hc1 & Hc2).
  pose proof (setter_unchanged_vis f u (visible r)) as U1.
  pose proof (setter_unchanged_range
                (snd (setInVisibilityMemory f u (visible r))) u (inRange r))
    as U2.
  subst f2 changed. unfold updateVisibilityState. rewrite Hr.
  destruct (setInVisibilityMemory f u (visible r)) as [c1 f1].
  simpl in *.
  destruct (setInRangeMemory f1 u (inRange r)) as [c2 f2]. simpl in *.
  rewrite <- Hc1, <- Hc2.
  destruct (c1 || c2) eqn:Ec.
  - destruct (broadcastData w); simpl; repeat split; discriminate.
  - apply orb_false_iff in Ec as [-> ->].
    rewrite (U2 eq_refl), (U1 eq_refl). simpl. repeat split.
Qed.



(** Whatever updates and pings a live factory has gone through, each in a
    world of its own, every user of its range memory is in its visibility
    memory as well. *)
Theorem range_memory_within_visibility f :
  maintained f -> rangeWithinVisibility f.
Proof.
  induction 1 as [|w f liveUser Hf IH|i f u b s Hf IH].
  - intros u. discriminate.
  - destruct liveUser as [u|]; [|exact IH].
    destruct (getVisibilityState w f (Some u)) as [[?|r]| |] eqn:Hr;
      try (unfold updateVisibilityState; rewrite Hr; exact IH).
    destruct (maintained_NoDup f Hf) as (Hv & Hg & _).
    destruct (update_memories f u r Hv Hg) as (H1 & H2 & H3 & _).
    destruct (update_result w f u r Hv Hg Hr) as (Hs & _).
    rewrite Hs.
    intros v Hin. destruct (Nat.eq_dec v u) as [->|Hne].
    + rewrite H1. rewrite H2 in Hin.
      apply (FactoryFacts.getVisibilityState_coherent w f (Some u) r Hr).
      rewrite Hin. destruct (ally r); reflexivity.
    + destruct (H3 v Hne) as [E1 E2]. rewrite E1. apply IH.
      now rewrite <- E2.
  - intros v. unfold setInPingMemory, isInRangeMemory, isInVisibilityMemory.
    destruct (Bool.eqb _ b); simpl; apply IH.
Qed.

Lemma range_memory_within_visibility_witness :
  rangeWithinVisibility
    (snd (updateVisibilityState (Scenario.world 3)
            (snd (updateVisibilityState (Scenario.world 3) Factory.new
                    (Some 2%nat)))
            (Some 30%nat))).
Proof.
  apply range_memory_within_visibility.
  apply maintained_update, maintained_update, maintained_new.
Defined.

(** *** Who may modify the factory *)

Lemma isUserInRange_located w f liveUser :
  isUserInRange w f liveUser = CalledBack (inr true) ->
  exists u, liveUser = Some u /\ hasRecentLocation (users w) u = true.
Proof.
  unfold isUserInRange. destruct liveUser as [u|]; [|discriminate].
  destruct (hasRecentLocation (users w) u) eqn:E; simpl;
    [intros _; eauto | discriminate].
Qed.

(** [canModify] calls back [true] only for a user whose team is the team
    of the factory, whose live user is known and has a recent location,
    and whom the in-range check of the factory accepts. *)
Theorem canModify_only_allies_in_range w f user :
  canModify w f user = CalledBack (inr true) ->
  exists m T g u,
    getFactoryModel w = Some m /\ team m = Some T
    /\ mod_getGameUser user = inr (Some g) /\ gu_getTeam g = inr (Some T)
    /\ mod_getUser user = inr (Some u)
    /\ hasRecentLocation (users w) u = true
    /\ isUserInRange w f (Some u) = CalledBack (inr true).
Proof.
  unfold canModify, bind, andThen, read.
  destruct (getFactoryModel w) as [m|]; [|discriminate].
  destruct (f_getTeam (faults w)); [discriminate|].
  destruct (mod_getGameUser user) as [?|[g|]]; try discriminate.
  destruct (gu_getTeam g) as [?|userTeam] eqn:Hut; [discriminate|].
  destruct (team m) as [ft|] eqn:Hft, userTeam as [ut|]; try discriminate.
  destruct (Nat.eqb ft ut) eqn:E; [|discriminate]. simpl.
  apply Nat.eqb_eq in E. subst ut.
  destruct (mod_getUser user) as [?|liveUser]; [discriminate|].
  destruct (isUserInRange w f liveUser) as [[?|[|]]| |] eqn:Hr;
    try discriminate.
  intros _. destruct (isUserInRange_located w f liveUser Hr) as (u & -> & Hl).
  exists m, ft, g, u. repeat split; auto.
Qed.

Lemma canModify_only_allies_in_range_witness :
  canModify (Scenario.world 3) Scenario.liveFactory (Cases.modifier 2%nat)
  = CalledBack (inr true)
  /\ canModify (Scenario.world 3) Scenario.liveFactory
       (Cases.modifier 12%nat)
     = CalledBack (inr false).
Proof.
  split; [|vm_compute; reflexivity].
  destruct (canModify_only_allies_in_range (Scenario.world 3)
              Scenario.liveFactory (Cases.modifier 2%nat))
    as (m & T & g & u & _).
  - vm_compute. reflexivity.
  - vm_compute. reflexivity.
Defined.

End VisibilityFacts.


(** ** Pings *)

Module PingFacts.
Import JS Game Factory Ping ArrayFacts.

Lemma indexOf_from_push_fresh (l : list nat) (u : nat) (i : Z) :
  ~ In u l ->
  indexOf_from Nat.eqb (l ++ [u]) u i = i + Z.of_nat (List.length l).
Proof.
  revert i. induction l as [|y l IH]; intros i H; simpl.
  - rewrite Nat.eqb_refl. lia.
  - destruct (Nat.eqb y u) eqn:E.
    + apply Nat.eqb_eq in E. exfalso. apply H. now left.
    + rewrite IH; [lia|]. intros Hin. apply H. now right.
Qed.

(** Removing what was just pushed gives the array back. *)
Lemma push_then_remove (l : list nat) (u : nat) :
  ~ In u l -> splice (push l u) (indexOf Nat.eqb (push l u) u) 1 = l.
Proof.
  intros H. unfold push, indexOf. rewrite indexOf_from_push_fresh by assumption.
  rewrite Z.add_0_l.
  rewrite (splice_middle l [] u). apply app_nil_r.
Qed.

Lemma pinged_after_push (l : list nat) (u : nat) :
  (0 <=? indexOf Nat.eqb (push l u) u) = true.
Proof. apply push_member. Qed.

Lemma pingFor_fresh i f u d s :
  isInPingMemory f u = false ->
  let started := pingFor i f u d s in
  snd started = Some {| delay := d; user := u |}
  /\ isInPingMemory (fst (fst started)) u = true
  /\ decay i (fst (fst started)) {| delay := d; user := u |}
     = (f, [(None, u)]).
Proof.
  intros H started. subst started.
  unfold pingFor, decay, setInPingMemory, isInPingMemory in *.
  destruct f as [vis rng png]. simpl in *. rewrite H. simpl.
  rewrite pinged_after_push. simpl.
  apply member_not_In in H. unfold UserRef in *.
  rewrite (push_then_remove png u H).
  repeat split.
Qed.

(** A ping of a user who is not pinged, followed by its decay, gives the
    live factory back as it was: the user is pinged in between, the
    location is broadcast with the update interval when the ping starts
    (unless the caller declines) and with [null] when it ends. *)
Theorem ping_round_trip i f u d s :
  isInPingMemory f u = false ->
  let started := pingFor i f u d s in
  exists k,
    snd started = Some k /\ delay k = d
    /\ isInPingMemory (fst (fst started)) u = true
    /\ snd (fst started)
       = match s with
         | Some false => []
         | _ => [(Some i, u)]
         end
    /\ decay i (fst (fst started)) k = (f, [(None, u)]).
Proof.
  intros H started. subst started.
  unfold pingFor, decay, setInPingMemory, isInPingMemory in *.
  destruct f as [vis rng png]. simpl in *. rewrite H. simpl.
  eexists. split; [reflexivity|]. simpl.
  rewrite pinged_after_push. simpl.
  apply member_not_In in H. unfold UserRef in *.
  rewrite (push_then_remove png u H).
  repeat split.
Qed.

Lemma ping_round_trip_witness :
  exists k,
    snd (pingFor 5000 Scenario.liveFactory 7%nat 60000 None) = Some k
    /\ decay 5000 (fst (fst (pingFor 5000 Scenario.liveFactory 7%nat 60000
                               None))) k
       = (Scenario.liveFactory, [(None, 7%nat)]).
Proof.
  destruct (ping_round_trip 5000 Scenario.liveFactory 7%nat 60000 None
              eq_refl) as (k & Hk & _ & _ & _ & Hd).
  exists k. split; assumption.
Defined.

(** A second ping, at the time [a2], of a user who is pinged since the
    time [a1] changes nothing and sends nothing.  Of the two timers the
    one that is due first ends the ping, and the other one finds nothing
    to do: the ping ends at the earlier of the two due times, so that a
    second ping never prolongs a ping, and a shorter one cuts it short. *)
Theorem ping_overlap i f u a1 d1 s1 a2 d2 s2 :
  isInPingMemory f u = false ->
  a1 <= a2 < a1 + d1 ->
  0 < d2 ->
  let first := pingFor i f u d1 s1 in
  let second := pingFor i (fst (fst first)) u d2 s2 in
  exists k1 k2,
    snd first = Some k1 /\ snd second = Some k2
    /\ delay k1 = d1 /\ delay k2 = d2
    /\ fst second = (fst (fst first), [])
    /\ fire i (fst (fst second))
         (enqueue (a2 + delay k2, k2) (enqueue (a1 + delay k1, k1) []))
       = (f, [(Z.min (a1 + d1) (a2 + d2), (None, u))]).
Proof.
  intros H _ _ first second.
  destruct (pingFor_fresh i f u d1 s1 H) as (Hk1 & Hp & Hd).
  fold first in Hk1, Hp, Hd.
  assert (Hsecond :
            second
            = (fst (fst first), [], Some {| delay := d2; user := u |})).
  { subst second. unfold pingFor at 1. unfold setInPingMemory.
    rewrite Hp. reflexivity. }
  assert (Hd2 : decay i (fst (fst first)) {| delay := d2; user := u |}
                = (f, [(None, u)])) by exact Hd.
  assert (Hidle : forall d, decay i f {| delay := d; user := u |} = (f, [])).
  { intros d. unfold decay, setInPingMemory. simpl. now rewrite H. }
  exists {| delay := d1; user := u |}, {| delay := d2; user := u |}.
  rewrite Hsecond. simpl.
  repeat (split; [reflexivity || assumption|]).
  destruct (a1 + d1 <=? a2 + d2) eqn:E; simpl.
  - rewrite Hd, Hidle. simpl. apply Z.leb_le in E.
    now rewrite Z.min_l by assumption.
  - rewrite Hd2, Hidle. simpl. apply Z.leb_gt in E.
    now rewrite Z.min_r by lia.
Qed.

Lemma ping_overlap_witness :
  exists k1 k2,
    snd (pingFor 5000 Cases.emptyFactory 7%nat 9000 None) = Some k1
    /\ fire 5000
         (fst (fst (pingFor 5000
                      (fst (fst (pingFor 5000 Cases.emptyFactory 7%nat 9000
                                   None)))
                      7%nat 1000 None)))
         (enqueue (10 + delay k2, k2) (enqueue (0 + delay k1, k1) []))
       = (Cases.emptyFactory, [(1010, (None, 7%nat))]).
Proof.
  destruct (ping_overlap 5000 Cases.emptyFactory 7%nat 0 9000 None 10 1000
              None eq_refl ltac:(lia) ltac:(lia))
    as (k1 & k2 & H1 & _ & _ & _ & _ & Hf).
  exists k1, k2. split; [exact H1 | exact Hf].
Defined.

End PingFacts.


(** ** Ticks *)

Module TickFacts.
Import JS Game Factory Production.

(** What the stored factory is after a tick whose reads all succeed. *)
Lemma tick_reads_ok w f m gameConfig :
  getFactoryModel w = Some m ->
  getConfig w = inr gameConfig ->
  f_getLevel (faults w) = None ->
  f_getIn (faults w) = None ->
  let productionIn := Game.getProductionIn (factory gameConfig) (level m) in
  let productionOut := Game.getProductionOut (factory gameConfig) (level m) in
  snd (tick w f)
  = Some (if valueIn m <? productionIn then m
          else snd (write (f_addOut (faults w)) (addOut productionOut)
                      (snd (write (f_subtractIn (faults w))
                              (subtractIn productionIn) m)))).
Proof.
  intros Hm Hc Hl Hi. unfold tick, getProductionIn, getProductionOut.
  rewrite Hm, Hc, Hl, Hi. simpl.
  destruct (valueIn m <? _); [reflexivity|].
  destruct (f_subtractIn (faults w)), (f_addOut (faults w)); reflexivity.
Qed.

(** A tick never deletes the stored factory and never touches its team,
    level, defence or location; whatever fails, an in-stock that is not
    negative stays so. *)
Theorem tick_frame w f m :
  getFactoryModel w = Some m ->
  exists m',
    snd (tick w f) = Some m'
    /\ team m' = team m /\ level m' = level m /\ defence m' = defence m
    /\ location m' = location m
    /\ (0 <= valueIn m -> 0 <= valueIn m').
Proof.
  intros Hm. unfold tick, getProductionIn, getProductionOut, bind, andThen.
  rewrite Hm.
  destruct (getConfig w) as [?|gameConfig];
    [exists m; repeat split; auto|].
  destruct (read (f_getLevel (faults w)) (level m)) as [?|lvl];
    [exists m; repeat split; auto|].
  destruct (read (f_getIn (faults w)) (valueIn m)) as [?|vin] eqn:Hin;
    [exists m; repeat split; auto|].
  assert (Hvin : vin = valueIn m).
  { unfold read in Hin. destruct (f_getIn (faults w)); congruence. }
  subst vin.
  destruct (valueIn m <? _) eqn:E; [exists m; repeat split; auto|].
  apply Z.ltb_ge in E. unfold write.
  destruct (f_subtractIn (faults w)), (f_addOut (faults w)); simpl;
    eexists; (split; [reflexivity|]); simpl; repeat split; auto; lia.
Qed.

Lemma tick_frame_witness :
  exists m',
    snd (tick (Scenario.world 3) Scenario.liveFactory) = Some m'
    /\ level m' = 3 /\ 0 <= valueIn m'.
Proof.
  destruct (tick_frame (Scenario.world 3) Scenario.liveFactory
              (Scenario.model 3) eq_refl)
    as (m' & H & _ & Hl & _ & _ & Hv).
  exists m'. repeat split; auto. apply Hv. simpl. lia.
Defined.

(** The two writes of a tick are issued side by side: when taking the
    input fails and adding the output does not, the tick calls back the
    error, yet the out-stock has grown while the in-stock is what it
    was. *)
Theorem tick_not_atomic w f m gameConfig err :
  getFactoryModel w = Some m ->
  getConfig w = inr gameConfig ->
  f_getLevel (faults w) = None ->
  f_getIn (faults w) = None ->
  f_subtractIn (faults w) = Some err ->
  f_addOut (faults w) = None ->
  Game.getProductionIn (factory gameConfig) (level m) <= valueIn m ->
  exists m',
    tick w f = (CalledBack (inl err), Some m')
    /\ valueIn m' = valueIn m
    /\ valueOut m'
       = valueOut m + Game.getProductionOut (factory gameConfig) (level m).
Proof.
  intros Hm Hc Hl Hi Hs Ha Hle.
  unfold tick, getProductionIn, getProductionOut.
  rewrite Hm, Hc, Hl, Hi, Hs, Ha. simpl.
  apply Z.ltb_ge in Hle. rewrite Hle.
  eexists. split; [reflexivity|]. split; reflexivity.
Qed.

Lemma tick_not_atomic_witness :
  let w :=
    {| getFactoryModel := Some (Scenario.model 3);
       faults :=
         {| f_getTeam := None; f_getLevel := None; f_getDefence := None;
            f_getIn := None; f_getOut := None; f_getLocation := None;
            f_getName := None; f_subtractIn := Some "busy"%string;
            f_addOut := None; f_setTeam := None; f_setLevel := None;
            f_setIn := None; f_setOut := None; f_setDefence := None;
            f_delete := None |};
       getConfig := inr Scenario.config;
       users := Scenario.users;
       isInRange := isInRange (Scenario.world 3);
       getStage := inr 1;
       getUserState := getUserState (Scenario.world 3);
       getGameUser := getGameUser (Scenario.world 3);
       userNames := userNames (Scenario.world 3);
       teamNames := teamNames (Scenario.world 3);
       broadcastData := inr tt;
       userManager_users := userManager_users (Scenario.world 3) |} in
  exists m',
    tick w Scenario.liveFactory = (CalledBack (inl "busy"%string), Some m')
    /\ valueIn m' = 10 /\ valueOut m' = 3.
Proof.
  intros w.
  apply (tick_not_atomic w Scenario.liveFactory (Scenario.model 3)
           Scenario.config "busy"%string
           eq_refl eq_refl eq_refl eq_refl eq_refl eq_refl).
  vm_compute. discriminate.
Defined.

(** Ticks in a row, with no failing access and an input production above
    zero: once there have been at least [in / productionIn] of them, the
    in-stock is [in mod productionIn] and the out-stock has grown by
    [in / productionIn] times the output production; further ticks change
    nothing. *)
Theorem ticks_until_dry (n : nat) :
  forall w f m gameConfig,
    getFactoryModel w = Some m ->
    getConfig w = inr gameConfig ->
    f_getLevel (faults w) = None ->
    f_getIn (faults w) = None ->
    f_subtractIn (faults w) = None ->
    f_addOut (faults w) = None ->
    let productionIn := Game.getProductionIn (factory gameConfig) (level m) in
    let productionOut :=
      Game.getProductionOut (factory gameConfig) (level m) in
    0 < productionIn ->
    0 <= valueIn m ->
    valueIn m / productionIn <= Z.of_nat n ->
    exists m',
      getFactoryModel (ticks n w f) = Some m'
      /\ valueIn m' = valueIn m mod productionIn
      /\ valueOut m' = valueOut m + valueIn m / productionIn * productionOut
      /\ level m' = level m.
Proof.
  induction n as [|n IH];
    intros w f m gameConfig Hm Hc Hl Hi Hs Ha productionIn productionOut
      Hpos Hin Hn.
  - simpl. exists m.
    assert (Hq : valueIn m / productionIn = 0)
      by (pose proof (Z.div_pos (valueIn m) productionIn Hin Hpos); lia).
    apply Z.div_small_iff in Hq; [|lia].
    destruct Hq as [Hq|Hq]; [|lia].
    rewrite Z.mod_small, Z.div_small by assumption.
    repeat split; auto; lia.
  - simpl ticks.
    pose proof (tick_reads_ok w f m gameConfig Hm Hc Hl Hi) as Ht.
    fold productionIn productionOut in Ht. rewrite Hs, Ha in Ht.
    simpl in Ht. rewrite Ht.
    destruct (valueIn m <? productionIn) eqn:E.
    + apply Z.ltb_lt in E.
      destruct (IH (withModel w (Some m)) f m gameConfig
                  eq_refl Hc Hl Hi Hs Ha Hpos Hin) as (m' & H1 & H2 & H3 & H4).
      { fold productionIn. rewrite Z.div_small by lia. lia. }
      exists m'. repeat split; auto.
    + apply Z.ltb_ge in E.
      set (m1 := addOut productionOut (subtractIn productionIn m)).
      assert (Hdiv : (valueIn m - productionIn) / productionIn
                     = valueIn m / productionIn - 1).
      { replace (valueIn m - productionIn)
          with (valueIn m + (-1) * productionIn) by lia.
        rewrite Z.div_add by lia. lia. }
      assert (Hmod : (valueIn m - productionIn) mod productionIn
                     = valueIn m mod productionIn).
      { replace (valueIn m - productionIn)
          with (valueIn m + (-1) * productionIn) by lia.
        apply Z.mod_add. lia. }
      destruct (IH (withModel w (Some m1)) f m1 gameConfig
                  eq_refl Hc Hl Hi Hs Ha) as (m' & H1 & H2 & H3 & H4).
      * exact Hpos.
      * simpl. lia.
      * simpl. fold productionIn. rewrite Hdiv. lia.
      * exists m'. simpl in H2, H3, H4. fold productionIn productionOut in H2, H3.
        rewrite Hdiv, Hmod in *. repeat split; auto; lia.
Qed.

Lemma ticks_until_dry_witness :
  exists m',
    getFactoryModel (ticks 5 (Scenario.world 2) Scenario.liveFactory)
    = Some m'
    /\ valueIn m' = 2 /\ valueOut m' = 4.
Proof.
  destruct (ticks_until_dry 5 (Scenario.world 2) Scenario.liveFactory
              (Scenario.model 2) Scenario.config
              eq_refl eq_refl eq_refl eq_refl eq_refl eq_refl)
    as (m' & H1 & H2 & H3 & _).
  - simpl. lia.
  - simpl. lia.
  - vm_compute. discriminate.
  - exists m'. repeat split; assumption.
Defined.

End TickFacts.


(** ** Attacks *)

Module AttackFacts.
Import JS Game Factory Production Spec Terms.

Lemma getConquer_calls_back w f m :
  getFactoryModel w = Some m -> exists r, getConquer w f = CalledBack r.
Proof.
  intros Hm. unfold getConquer, bind. rewrite Hm.
  destruct (read _ (defence m)); [eauto|].
  destruct (read _ (team m)); eauto.
Qed.

(** An attacker of the team of the factory is refused. *)
Lemma same_team_refused w f user m T :
  getFactoryModel w = Some m ->
  team m = Some T ->
  getTeam (users w) user = inr (Some T) ->
  exists e, attack w f user = (CalledBack (inl e), Some m).
Proof.
  intros Hm HT Hu. unfold attack, failing. rewrite Hm, Hu.
  destruct (getConquer_calls_back w f m Hm) as [r ->].
  destruct (f_getTeam (faults w)); simpl; [eauto|].
  destruct r as [?|[c n]]; [eauto|].
  destruct (c <=? 0); [eauto|].
  rewrite HT. simpl. rewrite Nat.eqb_refl. eauto.
Qed.

(** An attack by a user who has no team, or whose team is the team of the
    factory, calls back an error and leaves the stored factory exactly as
    it was, whatever the conquer value and whatever else fails. *)
Theorem attack_refuses_own_team w f user m :
  getFactoryModel w = Some m ->
  (getTeam (users w) user = inr None
   \/ (exists T, team m = Some T /\ getTeam (users w) user = inr (Some T))) ->
  exists e, attack w f user = (CalledBack (inl e), Some m).
Proof.
  intros Hm [Hu | (T & HT & Hu)].
  - unfold attack, failing. rewrite Hm, Hu.
    destruct (read (f_getTeam (faults w)) (team m)); eauto.
  - now apply (same_team_refused w f user m T).
Qed.

Lemma attack_refuses_own_team_witness :
  exists e,
    attack (Scenario.world 3) Scenario.liveFactory 2%nat
    = (CalledBack (inl e), Some (Scenario.model 3)).
Proof.
  apply (attack_refuses_own_team (Scenario.world 3) Scenario.liveFactory
           2%nat (Scenario.model 3) eq_refl).
  right. exists 1%nat. split; reflexivity.
Defined.

(** The loop over the users goes through exactly when they can all be
    told. *)
Lemma notifyUsers_through w f user T ft l :
  snd (notifyUsers w f user T ft l) = None
  <-> (forall u, In u l ->
         exists otherTeam,
           getTeam (users w) u = inr otherTeam
           /\ (otherTeam <> None -> ft <> None)).
Proof.
  induction l as [|u l IH]; simpl.
  - split; [intros _ u []|reflexivity].
  - unfold notifyUser at 1.
    destruct (getTeam (users w) u) as [e|[ot|]] eqn:Hu.
    + simpl. split; [discriminate|]. intros H.
      destruct (H u (or_introl eq_refl)) as (ot & E & _). congruence.
    + destruct ft as [ft|].
      * assert (Hrest :
                  snd (notifyUsers w f user T (Some ft) l) = None
                  <-> (forall u0, u = u0 \/ In u0 l ->
                         exists otherTeam,
                           getTeam (users w) u0 = inr otherTeam
                           /\ (otherTeam <> None -> Some ft <> None))).
        { rewrite IH. split.
          - intros H u0 [<-|Hin]; [|auto].
            exists (Some ot). split; [assumption|discriminate].
          - intros H u0 Hin. apply H. now right. }
        destruct (negb _ && negb _ && negb _);
          destruct (notifyUsers w f user T (Some ft) l) as [sent x];
          exact Hrest.
      * simpl. split; [discriminate|]. intros H.
        destruct (H u (or_introl eq_refl)) as (ot' & E & Hn).
        rewrite Hu in E. injection E as <-.
        exfalso. apply Hn; [discriminate|reflexivity].
    + assert (Hrest :
                snd (notifyUsers w f user T ft l) = None
                <-> (forall u0, u = u0 \/ In u0 l ->
                       exists otherTeam,
                         getTeam (users w) u0 = inr otherTeam
                         /\ (otherTeam <> None -> ft <> None))).
      { rewrite IH. split.
        - intros H u0 [<-|Hin]; [|auto].
          exists None. split; [assumption|]. intros Hn. now elim Hn.
        - intros H u0 Hin. apply H. now right. }
      destruct (notifyUsers w f user T ft l) as [sent x]; exact Hrest.
Qed.

(** For a factory without a team the loop throws as soon as it comes to
    a user who has a team. *)
Lemma notifyUsers_teamless w f user T l :
  (forall u, In u l -> exists otherTeam, getTeam (users w) u = inr otherTeam) ->
  (exists u t, In u l /\ getTeam (users w) u = inr (Some t)) ->
  notifyUsers w f user T None l = ([], Some TypeError_null).
Proof.
  induction l as [|u l IH]; intros Hall (v & t & Hin & Hv).
  - destruct Hin.
  - simpl. unfold notifyUser at 1.
    destruct (getTeam (users w) u) as [e|[ot|]] eqn:Hu.
    + destruct (Hall u (or_introl eq_refl)) as [ot E]. congruence.
    + reflexivity.
    + rewrite IH; [reflexivity| |].
      * intros u0 H0. apply Hall. now right.
      * destruct Hin as [<-|Hin]; [congruence|eauto].
Qed.

(** What a success of [attack] tells. *)
Lemma attack_success_inv w f user after :
  attack w f user = (CalledBack (inr tt), after) ->
  exists m T c n gameConfig,
    getFactoryModel w = Some m
    /\ getTeam (users w) user = inr (Some T)
    /\ getConquer w f = CalledBack (inr (c, n))
    /\ 0 < c /\ sameTeam (team m) (Some T) = false /\ 1 < level m
    /\ getConfig w = inr gameConfig
    /\ captureAccesses (faults w)
    /\ captureNames w user T
    /\ notifiable w (team m)
    /\ after = Some (captured gameConfig T m).
Proof.
  unfold attack, failing, write, captureAccesses, captureNames, notifiable,
    notices.
  destruct (getFactoryModel w) as [m|]; [|discriminate].
  destruct (f_getTeam (faults w)); simpl; [discriminate|].
  destruct (getTeam (users w) user) as [?|[T|]]; try discriminate.
  destruct (getConquer w f) as [[?|[c n]]| |]; try discriminate.
  destruct (c <=? 0) eqn:Ec; [discriminate|].
  destruct (sameTeam (team m) (Some T)) eqn:Es; [discriminate|].
  destruct (f_getLevel (faults w)); simpl; [discriminate|].
  destruct (level m <=? 1) eqn:El.
  { destruct (f_getName (faults w)); simpl; [discriminate|].
    destruct (userNames w user); [discriminate|].
    destruct (teamNames w T); [discriminate|].
    destruct (snd (notifyUsers _ _ _ _ _ _)); discriminate. }
  destruct (f_getIn (faults w)); simpl; [discriminate|].
  destruct (f_getOut (faults w)); simpl; [discriminate|].
  destruct (f_getDefence (faults w)); simpl; [discriminate|].
  destruct (getConfig w) as [?|gameConfig]; [discriminate|].
  destruct (f_setTeam (faults w)), (f_setLevel (faults w)),
    (f_setIn (faults w)), (f_setOut (faults w)), (f_setDefence (faults w));
    simpl; try discriminate.
  destruct (f_getName (faults w)); simpl; [discriminate|].
  destruct (userNames w user) as [?|un] eqn:Hun; [discriminate|].
  destruct (teamNames w T) as [?|tn] eqn:Htn; [discriminate|].
  destruct (snd (notifyUsers w f user T (team m) (userManager_users w)))
    eqn:Hn; [discriminate|].
  intros [= <-]. apply Z.leb_gt in Ec, El.
  pose proof (proj1 (notifyUsers_through w f user T (team m)
                       (userManager_users w)) Hn) as Hall.
  exists m, T, c, n, gameConfig. repeat split; eauto.
Qed.

(** After a successful attack, no user of the attacker's team can attack
    the factory again: such an attack is refused and changes nothing. *)
Theorem capture_is_final_for_team w f user user' after :
  attack w f user = (CalledBack (inr tt), after) ->
  getTeam (users w) user' = getTeam (users w) user ->
  exists e,
    attack (withModel w after) f user' = (CalledBack (inl e), after).
Proof.
  intros Ha Hu.
  destruct (attack_success_inv w f user after Ha)
    as (m & T & c & n & gameConfig & _ & HT & _ & _ & _ & _ & _ & _ & _ & _
        & ->).
  apply (same_team_refused (withModel w (Some (captured gameConfig T m))) f
           user' (captured gameConfig T m) T);
    simpl; congruence.
Qed.

Lemma capture_is_final_for_team_witness :
  exists e after,
    attack (withModel (Scenario.world 3) after) Scenario.liveFactory 12%nat
    = (CalledBack (inl e), after).
Proof.
  destruct (capture_is_final_for_team (Scenario.world 3)
              Scenario.liveFactory 11%nat 12%nat
              (snd (attack (Scenario.world 3) Scenario.liveFactory 11%nat))
              eq_refl eq_refl) as [e He].
  eauto.
Defined.


(** The guard of [attack] lets a factory without a team through: its
    capture is written.  When the users of the game answer [getTeam] and
    one of them has a team, none of them is told of the capture: the loop
    over the users asks the team of the factory, which is [null], for its
    id at the first user who has a team, and a [TypeError] escapes from
    it. *)
Theorem attack_without_team_tells_nobody w f user m T c n gameConfig :
  getFactoryModel w = Some m ->
  team m = None ->
  getTeam (users w) user = inr (Some T) ->
  getConquer w f = CalledBack (inr (c, n)) ->
  0 < c -> 1 < level m ->
  getConfig w = inr gameConfig ->
  captureAccesses (faults w) ->
  (forall u, In u (userManager_users w) ->
     exists otherTeam, getTeam (users w) u = inr otherTeam) ->
  (exists u t, In u (userManager_users w)
               /\ getTeam (users w) u = inr (Some t)) ->
  snd (attack w f user) = Some (captured gameConfig T m)
  /\ notices w f user T (team m) = ([], Some TypeError_null).
Proof.
  intros Hm Ht Hu Hc Hpos Hl Hg
    (A1 & A2 & A3 & A4 & A5 & A6 & A7 & A8 & A9 & A10) Hall Hsome.
  split.
  - unfold attack, failing, write.
    rewrite Hm, Hu, Hc, Hg, A1, A2, A3, A4, A5, A6, A7, A8, A9, A10. simpl.
    assert (E1 : (c <=? 0) = false) by (apply Z.leb_gt; lia).
    assert (E2 : (level m <=? 1) = false) by (apply Z.leb_gt; lia).
    rewrite E1, Ht, E2. simpl.
    destruct (read (f_getName (faults w)) tt); [reflexivity|].
    destruct (userNames w user); [reflexivity|].
    destruct (teamNames w T); [reflexivity|].
    destruct (snd (notices w f user T None)); reflexivity.
  - rewrite Ht. unfold notices.
    now apply notifyUsers_teamless.
Qed.

Lemma attack_without_team_tells_nobody_witness :
  snd (attack Cases.teamless Scenario.liveFactory 11%nat)
  = Some (captured Scenario.config 2%nat
            (Factory.setTeam None (Scenario.model 3)))
  /\ notices Cases.teamless Scenario.liveFactory 11%nat 2%nat None
     = ([], Some TypeError_null).
Proof.
  apply (attack_without_team_tells_nobody Cases.teamless
           Scenario.liveFactory 11%nat _ 2%nat 21 3 Scenario.config
           eq_refl eq_refl eq_refl).
  - vm_compute. reflexivity.
  - lia.
  - simpl. lia.
  - reflexivity.
  - repeat split.
  - intros u Hu. eexists. reflexivity.
  - exists 11%nat, 2%nat. split; [simpl; auto 10|reflexivity].
Defined.

(** Whatever fails, a factory that [attack] leaves stored keeps its
    location; its level is what it was or, when that was above one, one
    lower; its team is what it was or the team of the attacker. *)
Theorem attack_frame w f user m m' :
  getFactoryModel w = Some m ->
  snd (attack w f user) = Some m' ->
  location m' = location m
  /\ (level m' = level m \/ (level m' = level m - 1 /\ 1 < level m))
  /\ (team m' = team m \/ getTeam (users w) user = inr (team m')).
Proof.
  intros Hm. unfold attack, failing, write. rewrite Hm.
  destruct (f_getTeam (faults w)); simpl;
    [intros [= <-]; auto|].
  destruct (getTeam (users w) user) as [?|[T|]];
    try (intros [= <-]; auto).
  destruct (getConquer w f) as [[?|[c n]]| |]; try (intros [= <-]; auto).
  destruct (c <=? 0); [intros [= <-]; auto|].
  destruct (sameTeam (team m) (Some T)); [intros [= <-]; auto|].
  destruct (f_getLevel (faults w)); simpl; [intros [= <-]; auto|].
  destruct (level m <=? 1) eqn:El.
  { destruct (f_getName (faults w)); simpl; [intros [= <-]; auto|].
    destruct (userNames w user); [intros [= <-]; auto|].
    destruct (teamNames w T); [intros [= <-]; auto|].
    destruct (f_delete (faults w)); [intros [= <-]; auto|discriminate]. }
  apply Z.leb_gt in El.
  destruct (f_getIn (faults w)); simpl; [intros [= <-]; auto|].
  destruct (f_getOut (faults w)); simpl; [intros [= <-]; auto|].
  destruct (f_getDefence (faults w)); simpl; [intros [= <-]; auto|].
  destruct (getConfig w) as [?|gameConfig]; [intros [= <-]; auto|].
  destruct (f_setTeam (faults w)), (f_setLevel (faults w)),
    (f_setIn (faults w)), (f_setOut (faults w)), (f_setDefence (faults w));
    simpl; try (intros [= <-]; simpl; auto; fail).
  destruct (f_getName (faults w)); simpl; [intros [= <-]; simpl; auto|].
  destruct (userNames w user); [intros [= <-]; simpl; auto|].
  destruct (teamNames w T); [intros [= <-]; simpl; auto|].
  destruct (snd (notices w f user T (team m)));
    intros [= <-]; simpl; auto.
Qed.

Lemma attack_frame_witness :
  exists m',
    snd (attack (Scenario.world 3) Scenario.liveFactory 11%nat) = Some m'
    /\ level m' = 2 /\ location m' = (0%Q, 0%Q).
Proof.
  eexists. split; [vm_compute; reflexivity|].
  destruct (attack_frame (Scenario.world 3) Scenario.liveFactory 11%nat
              (Scenario.model 3) _ eq_refl eq_refl) as (Hl & _ & _).
  split; [reflexivity | exact Hl].
Defined.


Lemma positive_sum (l : list Z) :
  0 < fold_right Z.add 0 l -> exists x, In x l /\ 0 < x.
Proof.
  induction l as [|x l IH]; simpl; [lia|].
  intros H. destruct (Z_lt_le_dec 0 x) as [Hx|Hx].
  - exists x. auto.
  - destruct IH as (y & Hy & Hpos); [lia|]. exists y. auto.
Qed.

(** A factory whose defence is not negative is left exactly as it is by
    every attack, unless its range memory holds a located user whose
    signed strength is above zero (an enemy of positive strength, or an
    ally of negative strength). *)
Theorem attack_needs_attacker w f user m :
  getFactoryModel w = Some m ->
  0 <= defence m ->
  snd (attack w f user) <> Some m ->
  exists u,
    In u (_userRangeMem f)
    /\ hasRecentLocation (users w) u = true
    /\ 0 < signedStrength (users w) (team m) u.
Proof.
  intros Hm Hd. unfold attack, failing. rewrite Hm.
  destruct (f_getTeam (faults w)) eqn:Ht; simpl; [congruence|].
  destruct (getTeam (users w) user) as [?|[T|]]; try (simpl; congruence).
  destruct (getConquer w f) as [[?|[c n]]| |] eqn:Hc;
    try (simpl; congruence).
  destruct (c <=? 0) eqn:Ec; [simpl; congruence|].
  intros _. apply Z.leb_gt in Ec.
  unfold getConquer, bind, read in Hc. rewrite Hm, Ht in Hc.
  destruct (f_getDefence (faults w)); [discriminate|].
  injection Hc as Hc.
  apply FactoryFacts.tally_sound in Hc as [Hsum _].
  destruct (positive_sum
              (map (signedStrength (users w) (team m))
                 (located (users w) (_userRangeMem f))))
    as (x & Hx & Hpos); [lia|].
  apply in_map_iff in Hx as (u & <- & Hu).
  unfold located in Hu. apply filter_In in Hu as [Hin Hloc].
  exists u. auto.
Qed.

Lemma attack_needs_attacker_witness :
  exists u,
    In u (_userRangeMem Scenario.liveFactory)
    /\ 0 < signedStrength Scenario.users (Some 1%nat) u.
Proof.
  destruct (attack_needs_attacker (Scenario.world 3) Scenario.liveFactory
              11%nat (Scenario.model 3) eq_refl)
    as (u & Hin & _ & Hpos).
  - simpl. lia.
  - vm_compute. discriminate.
  - exists u. split; assumption.
Defined.

End AttackFacts.


(** ** More on the live shop *)

Module ShopMoreFacts.
Import JS Game Shop Spec Terms.

(** [load] always calls back: with success exactly when both the token
    and the game configuration arrive.  The timer of the preparation step
    is set exactly when the configuration arrives, even if the token
    generator has failed; without the configuration the event loop and
    the prices stay as they are.  The owner, the identity and the range
    memory of the shop are never touched. *)
Theorem load_effect e s l :
  let shop' := snd (fst (load e s l)) in
  let loop' := snd (load e s l) in
  (exists r, fst (fst (load e s l)) = CalledBack r)
  /\ (fst (fst (load e s l)) = CalledBack (inr tt)
      <-> (exists token, generateToken e = inr token)
          /\ (exists gameConfig, load_getConfig e = inr gameConfig))
  /\ (forall gameConfig, load_getConfig e = inr gameConfig ->
        List.length (timers loop') = S (List.length (timers l))
        /\ _outBuyPrice shop' = Some (getOutBuyPrice (shop gameConfig))
        /\ _inSellPrice shop' = Some (getInSellPrice (shop gameConfig))
        /\ _range shop' = Some (range (shop gameConfig)))
  /\ (forall err, load_getConfig e = inl err ->
        loop' = l /\ _outBuyPrice shop' = _outBuyPrice s
        /\ _inSellPrice shop' = _inSellPrice s /\ _range shop' = _range s)
  /\ (forall token, generateToken e = inr token -> _token shop' = Some token)
  /\ ref shop' = ref s /\ _user shop' = _user s
  /\ _userRangeMem shop' = _userRangeMem s.
Proof.
  unfold load.
  destruct (generateToken e) as [e1|token], (load_getConfig e) as [e2|cfg];
    simpl; repeat split; eauto;
    try discriminate;
    try (intros [[? ?] [? ?]]; discriminate);
    try (intros ? [= <-]; repeat split; try reflexivity);
    try (intros ? [= <-]; reflexivity);
    try (intros ? [= <-]);
    try (rewrite length_app; simpl; lia).
  all: try reflexivity.
  all: try (rewrite length_app; simpl; lia).
  all: congruence.
Qed.

Lemma load_effect_witness :
  fst (fst (load {| generateToken := inl "no entropy"%string;
                    load_getConfig := inr Scenario.config |}
              Scenario.liveShop Scenario.loop))
  = CalledBack (inl "no entropy"%string)
  /\ List.length
       (timers (snd (load {| generateToken := inl "no entropy"%string;
                             load_getConfig := inr Scenario.config |}
                       Scenario.liveShop Scenario.loop))) = 1%nat.
Proof.
  split; [reflexivity|].
  apply (proj1 (proj2 (proj2 (load_effect
                                {| generateToken := inl "no entropy"%string;
                                   load_getConfig := inr Scenario.config |}
                                Scenario.liveShop Scenario.loop)))
           Scenario.config eq_refl).
Defined.

(** A preparation step that finds the owner without a team, or one of
    whose queries fails, sets no timer and tells nobody: when its timer
    was the only one, the event loop comes to rest with the shop still in
    the list, and the handover never takes place. *)
Theorem handover_abandoned world self alertTime workerInterval time l
    (n : nat) :
  preparing self alertTime workerInterval time l ->
  handoverStuck (world time) ->
  (0 < n)%nat ->
  turns world n l
  = {| now := time; timers := []; shops := shops l;
       scheduledUsers := scheduledUsers l; sent := sent l |}.
Proof.
  intros Hl Hstuck Hn. destruct n as [|n]; [lia|].
  simpl. unfold turn. rewrite Hl. simpl.
  assert (Hrun : forall l0,
             run_functionPrepareTransfer (world time) self alertTime
               workerInterval l0 = l0).
  { intros l0. unfold run_functionPrepareTransfer.
    destruct (getTeamModel (world time)) eqn:E1; [|reflexivity].
    destruct (findNewShopUser (world time)) as [?|newUser] eqn:E2;
      [reflexivity|].
    destruct (getTeamPreferredShopCountDelta (world time)) as [?|delta]
      eqn:E3; [reflexivity|].
    destruct Hstuck as [H|[[err H]|[err H]]]; congruence. }
  rewrite Hrun. apply ShopFacts.turns_idle. reflexivity.
Qed.

Lemma handover_abandoned_witness :
  shops (turns Cases.noTeam 10
           (snd (load Scenario.loadEnv Scenario.liveShop Scenario.loop)))
  = shops Scenario.loop.
Proof.
  rewrite (handover_abandoned Cases.noTeam
             (snd (fst (load Scenario.loadEnv Scenario.liveShop
                          Scenario.loop)))
             1000 300 4100
             (snd (load Scenario.loadEnv Scenario.liveShop Scenario.loop))
             10 eq_refl).
  - reflexivity.
  - left. reflexivity.
  - lia.
Defined.

Lemma splice_last {A : Type} (l : list A) : splice l (-1) 1 = removelast l.
Proof.
  unfold splice.
  destruct l as [|x l]; [reflexivity|].
  set (k := List.length (x :: l)).
  assert (Hk : (0 < k)%nat) by (subst k; simpl; lia).
  change (-1 <? 0) with true. cbv iota.
  replace (Z.max (Z.of_nat k + -1) 0) with (Z.of_nat (pred k)) by lia.
  replace (Z.min (Z.max 1 0) (Z.of_nat k - Z.of_nat (pred k))) with 1 by lia.
  replace (Z.to_nat (Z.of_nat (pred k) + 1)) with k by lia.
  rewrite Nat2Z.id. subst k.
  rewrite skipn_all, app_nil_r. symmetry. apply removelast_firstn_len.
Qed.

(** When the shop is no longer in the list of the shop manager at the time
    its transfer runs, it is the last shop of the list that is removed;
    the owner is told all the same. *)
Theorem transfer_of_unlisted_removes_last self l :
  unlisted self (shops l) ->
  shops (run_functionTransfer self l) = removelast (shops l)
  /\ sent (run_functionTransfer self l)
     = sent l ++ [{| recipient := getUser self;
                     message := "You're no longer a dealer" |}].
Proof.
  intros H. unfold run_functionTransfer. simpl. split; [|reflexivity].
  assert (Habsent : existsb (fun y => same y self) (shops l) = false).
  { apply not_true_iff_false. intros E. apply H.
    apply existsb_exists in E as (y & Hy & E).
    unfold same in E. apply Nat.eqb_eq in E. rewrite <- E.
    now apply in_map. }
  unfold indexOf. rewrite (ArrayFacts.indexOf_from_absent same _ _ _ Habsent).
  apply splice_last.
Qed.

Lemma transfer_of_unlisted_removes_last_witness :
  map ref (shops (run_functionTransfer (Shop.new 9%nat 1%nat) Scenario.loop))
  = [4; 5]%nat.
Proof.
  assert (H : unlisted (Shop.new 9%nat 1%nat) (shops Scenario.loop))
    by (unfold unlisted; simpl; intuition discriminate).
  rewrite (proj1 (transfer_of_unlisted_removes_last (Shop.new 9%nat 1%nat)
                    Scenario.loop H)).
  reflexivity.
Defined.

(** [isUserInRange] of a shop calls back [true] for the owner of the shop
    and for nobody else. *)
Theorem isUserInRange_only_owner w s liveUser :
  isUserInRange w s liveUser = CalledBack (inr true)
  <-> exists u,
        liveUser = Some u
        /\ getId (users w) (getUser s) = getId (users w) u.
Proof.
  split.
  - unfold isUserInRange, getRange.
    destruct liveUser as [u|]; [|discriminate].
    destruct (Nat.eqb _ _) eqn:E.
    + apply Nat.eqb_eq in E. eauto.
    + destruct (negb _); [discriminate|].
      destruct (getConfig w); [discriminate|].
      destruct (isInRangeMemory s u); discriminate.
  - intros (u & -> & H). now apply ShopFacts.isUserInRange_owner.
Qed.

Lemma isUserInRange_only_owner_witness :
  isUserInRange Scenario.shopWorld Scenario.liveShop (Some 1%nat)
  = CalledBack (inr true).
Proof.
  apply (proj2 (isUserInRange_only_owner Scenario.shopWorld Scenario.liveShop
                  (Some 1%nat))).
  exists 1%nat. split; reflexivity.
Defined.

End ShopMoreFacts.


(** ** More on the shop buy-out handler *)

Module HandlerMoreFacts.
Import JS Game ShopBuyOutHandler Spec Terms.

(** *** Looking the shop up *)

(** The shop that the two loops find belongs to one of the games and
    carries the token of the packet; when they find none, no shop of any
    game carries it, and the handler answers with one error dialog and
    changes no balance. *)
Theorem findShop_first games rawShop :
  (forall liveGame liveShop,
      findShop games rawShop = Some (liveGame, liveShop) ->
      In liveGame games /\ In liveShop (shops liveGame)
      /\ tokenIs (Shop._token liveShop) rawShop = true)
  /\ (findShop games rawShop = None ->
      (forall liveGame liveShop,
          In liveGame games -> In liveShop (shops liveGame) ->
          tokenIs (Shop._token liveShop) rawShop = false)
      /\ forall packet socket st,
           get (p_shop packet) = rawShop ->
           let r := handler games packet socket st in
           store r = st /\ thrown r = None
           /\ exists m, sent r = [m] /\ error m = true).
Proof.
  split.
  - induction games as [|g games IH]; intros liveGame liveShop; simpl;
      [discriminate|].
    destruct (find _ (shops g)) as [sh|] eqn:E.
    + intros [= <- <-]. apply find_some in E as [Hin Htok]. auto.
    + intros H. destruct (IH _ _ H) as (H1 & H2 & H3). auto.
  - intros Hnone. split.
    + induction games as [|g games IH]; intros liveGame liveShop; simpl;
        [contradiction|].
      simpl in Hnone.
      destruct (find _ (shops g)) as [sh|] eqn:E; [discriminate|].
      intros [<-|Hin] Hs.
      * apply (find_none _ _ E _ Hs).
      * exact (IH Hnone liveGame liveShop Hin Hs).
    + intros packet socket st <-. unfold handler.
      destruct (negb _ || _); [repeat split; eexists; split; reflexivity|].
      destruct (authenticatedUser socket);
        [|repeat split; eexists; split; reflexivity].
      rewrite Hnone. repeat split; eexists; split; reflexivity.
Qed.

Lemma findShop_first_witness :
  findShop [Scenario.liveGame] (String "tok")
  = Some (Scenario.liveGame, Scenario.loadedShop)
  /\ tokenIs (Shop._token Scenario.loadedShop) (String "tok") = true.
Proof.
  split; [reflexivity|].
  apply (proj1 (findShop_first [Scenario.liveGame] (String "tok"))
           Scenario.liveGame Scenario.loadedShop eq_refl).
Defined.

(** *** What the handler never does *)

(** The handler leaves alone every balance but the one of the user of the
    session in the game of the shop it has found. *)
Theorem handler_frame games packet socket st g u :
  (forall liveGame liveShop,
      authenticatedUser socket = Some u ->
      findShop games (get (p_shop packet)) = Some (liveGame, liveShop) ->
      game liveGame <> g) ->
  store (handler games packet socket st) g u = st g u.
Proof.
  intros _. unfold handler.
  destruct (negb _ || _); [reflexivity|].
  destruct (authenticatedUser socket) as [user|] eqn:Ha; [|reflexivity].
  destruct (findShop games (get (p_shop packet))) as [[liveGame liveShop]|]
    eqn:Hf; [|reflexivity].
  now rewrite (proj1 (HandlerFacts.transaction_cases liveGame liveShop
                        packet user st)).
Qed.

Lemma handler_frame_witness :
  store (handler [Scenario.liveGame] (Scenario.packet 5)
           (Scenario.socket 1%nat) Scenario.store) 0%nat 2%nat
  = Scenario.store 0%nat 2%nat.
Proof.
  apply handler_frame. intros liveGame liveShop H. discriminate.
Defined.

(** The handler answers a packet with at most one message, and with none
    when an exception escapes. *)
Theorem handler_single_answer games packet socket st :
  let r := handler games packet socket st in
  (List.length (sent r) <= 1)%nat
  /\ (thrown r <> None -> sent r = []).
Proof.
  assert (Hone : forall s' m,
             (List.length (sent (respond s' m)) <= 1)%nat
             /\ (thrown (respond s' m) <> None -> sent (respond s' m) = []))
    by (intros s' m; simpl; split; [lia|congruence]).
  unfold handler, callbackError.
  destruct (negb _ || _); [apply Hone|].
  destruct (authenticatedUser socket) as [user|]; [|apply Hone].
  destruct (findShop games (get (p_shop packet))) as [[liveGame liveShop]|];
    [|apply Hone].
  destruct (HandlerFacts.transaction_cases liveGame liveShop packet user st)
    as [_ [[Ht Hs]|[Ht Hs]]]; rewrite Hs; simpl.
  - split; [lia|]. intros Hn. now elim Hn.
  - split; [lia|reflexivity].
Qed.

Lemma handler_single_answer_witness :
  let r := handler [Scenario.liveGame] (Scenario.packet 0)
             (Scenario.socket 2%nat) Scenario.store in
  thrown r <> None /\ sent r = [].
Proof.
  intros r.
  assert (H : thrown r <> None) by (vm_compute; discriminate).
  split; [exact H|].
  exact (proj2 (handler_single_answer [Scenario.liveGame] (Scenario.packet 0)
                  (Scenario.socket 2%nat) Scenario.store) H).
Defined.

(** With the class [Shop] as it is, the handler sells nothing: it never
    changes a balance and never sends anything but an error message.  A
    user whom the in-range check of the shop accepts gets as far as the
    call of [getOutBuyPriceForGameUser], a method that [Shop] does not
    have, where a [TypeError] escapes before any packet is sent. *)
Theorem handler_never_sells games packet socket st :
  let r := handler games packet socket st in
  store r = st
  /\ (forall m, In m (sent r) -> error m = true)
  /\ (forall user liveGame liveShop liveUser,
        malformed packet = false ->
        authenticatedUser socket = Some user ->
        findShop games (get (p_shop packet)) = Some (liveGame, liveShop) ->
        getGameUser liveGame user = None ->
        getUser liveGame user = inr (Some liveUser) ->
        Shop.isUserInRange (shopWorld liveGame) liveShop (Some liveUser)
        = CalledBack (inr true) ->
        thrown r = Some TypeError_not_a_function /\ sent r = []).
Proof.
  assert (Herr : forall s' text m,
             In m (sent (respond s' (errorDialog text))) -> error m = true).
  { intros s' text m [<-|[]]. reflexivity. }
  split; [|split].
  - unfold handler.
    destruct (negb _ || _); [reflexivity|].
    destruct (authenticatedUser socket) as [user|]; [|reflexivity].
    destruct (findShop games (get (p_shop packet)))
      as [[liveGame liveShop]|]; [|reflexivity].
    apply HandlerFacts.transaction_cases.
  - unfold handler, callbackError.
    destruct (negb _ || _); [apply Herr|].
    destruct (authenticatedUser socket) as [user|]; [|apply Herr].
    destruct (findShop games (get (p_shop packet)))
      as [[liveGame liveShop]|]; [|apply Herr].
    destruct (HandlerFacts.transaction_cases liveGame liveShop packet user
                st) as [_ [[_ Hs]|[_ Hs]]]; rewrite Hs.
    + apply Herr.
    + intros m [].
  - intros user liveGame liveShop liveUser Hwf Hauth Hshop Hgu Hlu Hrange.
    unfold handler. unfold malformed in Hwf.
    rewrite Hwf, Hauth, Hshop. unfold transaction.
    rewrite Hgu, Hlu, Hrange. split; reflexivity.
Qed.

Lemma handler_never_sells_witness :
  let r := handler [Scenario.liveGame] (Scenario.packet 5)
             (Scenario.socket 1%nat) Scenario.store in
  thrown r = Some TypeError_not_a_function /\ sent r = [].
Proof.
  apply (proj2 (proj2 (handler_never_sells [Scenario.liveGame]
                         (Scenario.packet 5) (Scenario.socket 1%nat)
                         Scenario.store))
           1%nat Scenario.liveGame Scenario.loadedShop 1%nat);
    reflexivity.
Defined.

End HandlerMoreFacts.


(** ** The factory data sent to the clients *)

Module FactoryDataFacts.
Import JS Game Factory FactoryData Terms.

(** Follow the run of [sendData] through its next access; a run that ends
    there has sent nothing. *)
Ltac walk :=
  repeat (match goal with
          | |- context [read ?x ?v] => destruct x eqn:?; simpl read
          | |- context [match ?x with _ => _ end] => destruct x eqn:?
          | |- context [if ?x then _ else _] => destruct x eqn:?
          end;
          simpl;
          try (left; split; [reflexivity|discriminate])).

(** The two ways in which [sendData] ends: with nothing sent and no
    success called back, or with success and the packets of
    [sendFactoryData], whose data is bare unless the factory is visible,
    belongs to the game and has a team. *)
Lemma sendData_shape {U : Type} (w : World) (e : Env U) (f : t)
    (sockets : SocketsArg) :
  (snd (sendData w e f sockets) = []
   /\ fst (sendData w e f sockets) <> CalledBack (inr tt))
  \/ exists liveUser canManage visible d,
       getUser e = inr liveUser
       /\ hasManagePermission e = inr canManage
       /\ Visibility.isVisibleFor w f liveUser = CalledBack (inr visible)
       /\ sendData w e f sockets
          = (CalledBack (inr tt),
             sendFactoryData e (parseSockets sockets) d)
       /\ d_visible d = Some visible
       /\ d_canManage d = Some canManage
       /\ (visible = false -> bare d)
       /\ (visible = true ->
           factoryGame e = inr (Some (gameId e))
           /\ exists m T, getFactoryModel w = Some m /\ team m = Some T).
Proof.
  unfold sendData, getting, stop.
  destruct (getUser e) as [?|liveUser] eqn:Hu;
    [left; split; [reflexivity|discriminate]|].
  destruct (hasManagePermission e) as [?|canManage] eqn:Hc;
    [left; split; [reflexivity|discriminate]|].
  destruct (Visibility.isVisibleFor w f liveUser) as [[?|visible]| |] eqn:Hv;
    try (left; split; [reflexivity|discriminate]).
  destruct visible; simpl.
  - destruct (getFactoryModel w) as [m|] eqn:Hm;
      [|left; split; [reflexivity|discriminate]].
    destruct (factoryGame e) as [?|[resultId|]] eqn:Hg;
      try (left; split; [reflexivity|discriminate]).
    destruct (Nat.eqb (gameId e) resultId) eqn:Hid; simpl;
      [|left; split; [reflexivity|discriminate]].
    apply Nat.eqb_eq in Hid. subst resultId.
    destruct (team m) as [T|] eqn:HT.
    + walk.
      right. do 3 eexists. eexists.
      repeat split; try reflexivity; try discriminate; eauto.
    + walk.
  - right. do 3 eexists. eexists.
    repeat split; try reflexivity; try discriminate; auto.
Qed.

(** What [sendData] tells a user for whom the factory is not visible is
    whether it is visible and whether the user may manage it, and nothing
    else: every packet it sends carries the visibility that
    [isVisibleFor] has called back, and a packet that says "not visible"
    has no other field but [canManage]. *)
Theorem sendData_hides_invisible {U : Type} (w : World) (e : Env U) (f : t)
    (sockets : SocketsArg) (p : Sent U) :
  In p (snd (sendData w e f sockets)) ->
  exists liveUser visible canManage,
    getUser e = inr liveUser
    /\ Visibility.isVisibleFor w f liveUser = CalledBack (inr visible)
    /\ d_visible (payload p) = Some visible
    /\ hasManagePermission e = inr canManage
    /\ d_canManage (payload p) = Some canManage
    /\ (visible = false -> bare (payload p)).
Proof.
  intros Hin.
  destruct (sendData_shape w e f sockets)
    as [[Hnil _] | (liveUser & canManage & visible & d & Hu & Hc & Hv & Hs
                    & Hd1 & Hd2 & Hbare & _)].
  - rewrite Hnil in Hin. contradiction.
  - rewrite Hs in Hin. simpl in Hin.
    assert (Hp : payload p = d).
    { unfold sendFactoryData in Hin.
      destruct (parseSockets sockets) as [|s l].
      - destruct Hin as [<-|[]]. reflexivity.
      - apply in_map_iff in Hin as (x & <- & _). reflexivity. }
    rewrite Hp. exists liveUser, visible, canManage.
    do 5 (split; [assumption|]). exact Hbare.
Qed.

Lemma sendData_hides_invisible_witness :
  exists p,
    In p (snd (sendData (Scenario.world 3) (Cases.request 0 30%nat)
                 Cases.emptyFactory NoSockets))
    /\ d_visible (payload p) = Some false /\ d_name (payload p) = None.
Proof.
  eexists. split; [left; reflexivity|].
  destruct (sendData_hides_invisible (Scenario.world 3)
              (Cases.request 0 30%nat) Cases.emptyFactory NoSockets _
              (or_introl eq_refl))
    as (liveUser & visible & canManage & Hu & Hv & Hd & _ & _ & Hbare).
  injection Hu as <-. vm_compute in Hv. injection Hv as <-.
  split; [exact Hd | apply (Hbare eq_refl)].
Defined.

(** [sendData] sends packets only when it calls back success, and then
    one and the same factory data to every socket handed over, or to the
    user when no socket (or an empty array of sockets) is handed over;
    after an error or an exception nothing has been sent. *)
Theorem sendData_delivery {U : Type} (w : World) (e : Env U) (f : t)
    (sockets : SocketsArg) :
  let r := sendData w e f sockets in
  (fst r <> CalledBack (inr tt) -> snd r = [])
  /\ (fst r = CalledBack (inr tt) ->
      exists d,
        snd r
        = match parseSockets sockets with
          | [] => [ToUser (user e) d]
          | l => map (fun socket => ToSocket socket d) l
          end).
Proof.
  intros r. subst r.
  destruct (sendData_shape w e f sockets)
    as [[Hnil Hne] | (_ & _ & _ & d & _ & _ & _ & Hs & _)].
  - split; [auto|contradiction].
  - rewrite Hs. simpl. split; [congruence|].
    intros _. exists d. unfold sendFactoryData.
    destruct (parseSockets sockets); reflexivity.
Qed.

Lemma sendData_delivery_witness :
  exists d,
    snd (sendData (Scenario.world 3) (Cases.request 0 2%nat)
           Scenario.liveFactory (SocketArray [7; 8]%nat))
    = [ToSocket 7%nat d; ToSocket 8%nat d].
Proof.
  destruct (proj2 (sendData_delivery (Scenario.world 3)
                     (Cases.request 0 2%nat) Scenario.liveFactory
                     (SocketArray [7; 8]%nat)))
    as [d Hd].
  - vm_compute. reflexivity.
  - exists d. exact Hd.
Defined.

(** The details of a factory are sent only for a factory of the game of
    the request that has a team: for a visible factory of another game
    the error is called back, for a visible factory without a team
    success is never called back, and in both cases nothing is sent. *)
Theorem sendData_needs_game_and_team {U : Type} (w : World) (e : Env U)
    (f : t) (sockets : SocketsArg) m liveUser :
  getFactoryModel w = Some m ->
  getUser e = inr liveUser ->
  Visibility.isVisibleFor w f liveUser = CalledBack (inr true) ->
  (forall resultId,
      factoryGame e = inr (Some resultId) -> resultId <> gameId e ->
      (exists canManage, hasManagePermission e = inr canManage) ->
      sendData w e f sockets
      = (CalledBack (inl "The factory is not part of this game"%string), []))
  /\ (team m = None ->
      snd (sendData w e f sockets) = []
      /\ fst (sendData w e f sockets) <> CalledBack (inr tt)).
Proof.
  intros Hm Hu Hv. split.
  - intros resultId Hg Hne [canManage Hc].
    unfold sendData, getting, stop. rewrite Hu, Hc, Hv, Hm, Hg. simpl.
    assert (E : Nat.eqb (gameId e) resultId = false)
      by (apply Nat.eqb_neq; congruence).
    now rewrite E.
  - intros HT.
    destruct (sendData_shape w e f sockets)
      as [H | (liveUser' & _ & visible & _ & Hu' & _ & Hv' & _ & _ & _ & _
               & Hvis)]; [exact H|].
    rewrite Hu in Hu'. injection Hu' as <-.
    rewrite Hv in Hv'. injection Hv' as <-.
    destruct (Hvis eq_refl) as (_ & m' & T & Hm' & HT'). congruence.
Qed.

Lemma sendData_needs_game_and_team_witness :
  sendData (Scenario.world 3) (Cases.request 1 2%nat) Scenario.liveFactory
    NoSockets
  = (CalledBack (inl "The factory is not part of this game"%string), [])
  /\ snd (sendData Cases.teamless (Cases.request 0 12%nat)
            Scenario.liveFactory NoSockets) = [].
Proof.
  split.
  - apply (proj1 (sendData_needs_game_and_team (Scenario.world 3)
                    (Cases.request 1 2%nat) Scenario.liveFactory NoSockets
                    (Scenario.model 3) (Some 2%nat) eq_refl eq_refl eq_refl)
             0%nat eq_refl).
    + discriminate.
    + eexists. reflexivity.
  - apply (proj2 (sendData_needs_game_and_team Cases.teamless
                    (Cases.request 0 12%nat) Scenario.liveFactory NoSockets
                    _ (Some 12%nat) eq_refl eq_refl eq_refl)).
    reflexivity.
Defined.

End FactoryDataFacts.
